(** * reV tech mapping: exclusion pixels to resource and generation sites

    A shallow embedding of [reV/supply_curve/tech_mapping.py] (class
    [TechMapping]), with the constructor of [Resource] in
    [reV/handlers/resource.py] that it calls, and the properties of its
    two passes.

    Conventions of the embedding.
    - numpy values are rationals ([Q]) and integers ([Z]). Arithmetic on
      float64 is exact; the cast to float32 that the coordinate array of
      the resource pass applies rounds to the nearest float32; the width of
      int32 is not modelled.
    - a raised Python exception is a value of [exn]; code that can raise
      returns a [result].
    - the [.h5] files live in a store [gmap string h5file]; methods that
      warn, log an exception, submit a batch or write a file run in the
      monad [M] over a [world]. The lines that go to [logger.info] and
      [logger.debug] are not part of a world.
    - the other collaborators of the module (the exclusion extent, the
      generation meta table, the cpu count) are read through an
      environment [Env]. *)

From Stdlib Require Import ZArith QArith Qabs Qminmax Qround Lia Permutation
  Ascii String.
From stdpp Require Import base gmap list strings.

Open Scope Q_scope.
Open Scope nat_scope.

(** ** Exceptions and results *)

Inductive exn : Set :=
  | FileInputError
  | KeyError
  | ValueError
  | IndexError
  | TypeError
  | OSError
  | AttributeError.

Inductive result (A : Type) : Type :=
  | Ok (a : A)
  | Raise (e : exn).
Arguments Ok {A} a.
Arguments Raise {A} e.

#[global] Instance result_ret : MRet result := λ A a, Ok a.
#[global] Instance result_bind : MBind result := λ A B f r,
  match r with
  | Ok a => f a
  | Raise e => Raise e
  end.

Definition is_Ok {A} (r : result A) : Prop := ∃ a, r = Ok a.

(** ** Rational helpers *)

Definition Qlt_bool (a b : Q) : bool := negb (Qle_bool b a).

(** [np.min] and [np.max] of a 1-D array; both raise [ValueError] on an
    empty one. *)
Definition np_min (l : list Q) : result Q :=
  match l with
  | [] => Raise ValueError
  | x :: r => Ok (foldl Qmin x r)
  end.

Definition np_max (l : list Q) : result Q :=
  match l with
  | [] => Raise ValueError
  | x :: r => Ok (foldl Qmax x r)
  end.

(** [2 ** e] for an integer [e]. *)
Definition Qpow2 (e : Z) : Q :=
  if (0 <=? e)%Z then inject_Z (2 ^ e) else (/ inject_Z (2 ^ (- e)))%Q.

(** The largest [e] with [2 ** e <= a], for a positive [a]. *)
Definition Qlog2 (a : Q) : Z :=
  let e := (Z.log2 (Qnum a) - Z.log2 (Z.pos (Qden a)))%Z in
  if Qle_bool (Qpow2 e) a then e else (e - 1)%Z.

(** The integer nearest to [x], the even one of two that are equally
    near. *)
Definition round_half_even (x : Q) : Z :=
  let f := Qfloor x in
  match (x - inject_Z f ?= 1 # 2)%Q with
  | Lt => f
  | Gt => (f + 1)%Z
  | Eq => if Z.even f then f else (f + 1)%Z
  end.

(** The cast of a number to float32: the nearest number with 24
    significant bits and an exponent of at least -126 (subnormal below).
    A magnitude beyond the range of float32, which numpy turns into
    [inf], stays at its rounded value. *)
Definition np_float32 (q : Q) : Q :=
  if Qeq_bool q 0 then 0%Q
  else
    let a := Qabs q in
    let ulp := Qpow2 (Z.max (Qlog2 a) (-126) - 23) in
    let r := (inject_Z (round_half_even (a / ulp)) * ulp)%Q in
    Qred (if (0 <? Qnum q)%Z then r else - r).

(** [np.roll(a, 1)]: every entry moves one place to the right and the last
    entry comes first. *)
Definition np_roll1 {A} (l : list A) : list A := rotate (length l - 1) l.

(** The value of [2 ** 0.5] (the double nearest to the square root of 2). *)
Definition sqrt2 : Q := (6369051672525773 # 4503599627370496)%Q.

(** ** Paths *)

Fixpoint basename_aux (s acc : string) : string :=
  match s with
  | EmptyString => acc
  | String c r =>
      if Ascii.eqb c "/"%char then basename_aux r EmptyString
      else basename_aux r (acc +:+ String c EmptyString)
  end.

(** [os.path.basename]: what follows the last slash. *)
Definition basename (s : string) : string := basename_aux s EmptyString.

(** [str.endswith]. *)
Definition endswith (s suffix : string) : bool :=
  String.eqb
    (substring (String.length s - String.length suffix) (String.length suffix) s)
    suffix
  && (String.length suffix <=? String.length s).

(** ** The exclusion extent *)

Definition coord : Type := Q * Q.

(** A Python [slice(start, stop)]. *)
Record slice : Set := mk_slice { start : nat; stop : nat }.

(** The flat (row-major) positions that [a[row_slice, col_slice].flatten()]
    reads in an array of the given 2-D shape; a slice that runs past the
    array is clipped, as numpy and h5py do. *)
Definition window_inds (shape : nat * nat) (rc : slice * slice) : list nat :=
  r ← seq (start rc.1) (min (stop rc.1) shape.1 - start rc.1);
  c ← seq (start rc.2) (min (stop rc.2) shape.2 - start rc.2);
  [r * shape.2 + c].

(** Modelled from the spec: [SupplyCurveExtent] of
    [reV/supply_curve/points.py], which this module only calls. A chunk id
    (gid) maps to a pixel row/column window and to the corresponding flat
    pixel indices; the exclusion layer has a 2-D shape and a meta table
    with one (latitude, longitude) row per pixel, in flat order. *)
Record SupplyCurveExtent : Type := mk_extent {
  excl_shape : nat * nat;
  excl_meta : list coord;
  sc_len : nat;
  _res : nat;
  get_excl_slices : nat → slice * slice
}.

(** [len(sc.exclusions)]. *)
Definition excl_len (sc : SupplyCurveExtent) : nat := length (excl_meta sc).

(** Modelled from the spec: [SupplyCurveExtent.get_flat_excl_ind], the flat
    pixel indices of the window of a gid. *)
Definition get_flat_excl_ind (sc : SupplyCurveExtent) (gid : nat) : list nat :=
  window_inds (excl_shape sc) (get_excl_slices sc gid).

(** Modelled from the spec: [sc.exclusions['meta', row_slice, col_slice]]
    restricted to the coordinate labels, the meta rows of a window. *)
Definition excl_meta_window (sc : SupplyCurveExtent) (rc : slice * slice)
  : list coord :=
  omap (λ i, excl_meta sc !! i) (window_inds (excl_shape sc) rc).

(** ** The output store *)

Inductive h5data : Type :=
  | F32 (l : list Q)
  | I32 (l : list Z).

Inductive attr : Type :=
  | AStr (s : string)
  | ANum (q : Q).

Record dataset : Type := mk_dataset {
  ds_shape : nat * nat;
  ds_data : h5data;
  ds_attrs : gmap string attr
}.

Record h5file : Type := mk_h5file {
  h5_attrs : gmap string attr;
  h5_dsets : gmap string dataset
}.

(** The values of a dataset read as numbers. *)
Definition ds_values (d : dataset) : list Q :=
  match ds_data d with
  | F32 l => l
  | I32 l => inject_Z <$> l
  end.

(** [f[name][row_slice, col_slice].flatten()]. *)
Definition h5_read_window (f : h5file) (name : string) (rc : slice * slice)
  : result (list Q) :=
  match h5_dsets f !! name with
  | None => Raise KeyError
  | Some d => Ok (omap (λ i, ds_values d !! i) (window_inds (ds_shape d) rc))
  end.

(** ** Worlds and the monad of the methods *)

Inductive warning : Set :=
  | NoExclAttribute
  | ExclMismatch
  | DatasetReplaced.

(** What a method leaves in the world besides the files: a warning
    ([warn] with its [logger.warning] line), the [logger.exception] line
    of [_check_fout], the submission of a batch to the pool. *)
Inductive event : Type :=
  | Warn (w : warning)
  | LogException
  | Submit (i : nat).

Record world : Type := mk_world {
  fs : gmap string h5file;
  events : list event
}.

Definition M (A : Type) : Type := world → world * result A.

#[global] Instance M_ret : MRet M := λ A a w, (w, Ok a).
#[global] Instance M_bind : MBind M := λ A B f m w,
  match m w with
  | (w', Ok a) => f a w'
  | (w', Raise e) => (w', Raise e)
  end.

Definition raise {A} (e : exn) : M A := λ w, (w, Raise e).
Definition lift {A} (r : result A) : M A := λ w, (w, r).
Definition emit (e : event) : M unit :=
  λ w, (mk_world (fs w) (events w ++ [e]), Ok tt).
Definition get_fs : M (gmap string h5file) := λ w, (w, Ok (fs w)).
Definition put_file (path : string) (f : h5file) : M unit :=
  λ w, (mk_world (<[path:=f]> (fs w)) (events w), Ok tt).

(** [os.path.exists]. *)
Definition path_exists (files : gmap string h5file) (path : string) : bool :=
  bool_decide (is_Some (files !! path)).

(** ** The environment *)

Record Env : Type := mk_env {
  (** [SupplyCurveExtent(fpath_excl, resolution=resolution)] *)
  new_extent : string → option nat → SupplyCurveExtent;
  (** the [gid] column of the meta table of a generation file; the table
      has the default index, a row's index value is its position *)
  outputs_meta_gid : string → list Z;
  (** [os.cpu_count()] *)
  cpu_count : nat
}.

(** ** The resource handler

    The class [Resource] of [reV/handlers/resource.py], as far as this
    module reaches it. *)

Record Resource : Set := mk_Resource { _h5_file : string }.

(** The parameters of [Resource.__init__(self, h5_file, unscale=True,
    hsds=False)] that a call can name by keyword when it passes the file by
    position. *)
Definition Resource_keywords : list string := ["unscale"; "hsds"]%string.

(** The call [Resource(h5_file, k1=.., k2=.., ...)] with the keywords
    [kwargs]. Python binds the arguments before the body of [__init__]
    runs: a keyword that names no parameter, or names [h5_file] again, is
    a [TypeError]. The body opens the file for reading. *)
Definition Resource__init__ (files : gmap string h5file) (h5_file : string)
  (kwargs : list string) : result Resource :=
  if forallb (λ k, bool_decide (k ∈ Resource_keywords)) kwargs then
    if path_exists files h5_file then Ok (mk_Resource h5_file)
    else Raise OSError
  else Raise TypeError.

(** [res.get_meta_arr(label)]: neither the class nor its instances have
    an attribute of this name, the lookup raises [AttributeError]. *)
Definition get_meta_arr (res : Resource) (label : string) : result (list Q) :=
  Raise AttributeError.

(** ** The mapper object *)

Record TechMapping : Type := mk_mapper {
  _distance_upper_bound : option Q;
  _fpath_excl : string;
  _fpath_map : string;
  _fpath_out : string;
  _dset : string;
  _sc : SupplyCurveExtent;
  _resolution : nat;
  _n_cores : nat
}.

Definition set_distance_upper_bound (self : TechMapping) (q : Q) : TechMapping :=
  mk_mapper (Some q) (_fpath_excl self) (_fpath_map self) (_fpath_out self)
    (_dset self) (_sc self) (_resolution self) (_n_cores self).

(** The absolute differences [np.abs(lats - np.roll(lats, 1))]. *)
Definition lat_gaps (lats : list Q) : list Q :=
  zip_with (λ a b, Qabs (a - b)) lats (np_roll1 lats).

(** [dists[(dists != 0)]]. *)
Definition nonzero (dists : list Q) : list Q :=
  filter (λ d, Qeq_bool d 0 = false) dists.

(** The value inferred when no bound was given. *)
Definition infer_distance_upper_bound (lats : list Q) : result Q :=
  m ← np_min (nonzero (lat_gaps lats));
  mret (1.05 * sqrt2 * (m / 2))%Q.

(** ** Loops *)

(** A [for] loop whose body can raise: the state is threaded from one
    iteration to the next and the first exception ends the loop. *)
Fixpoint foldM {S X} (body : S → X → result S) (xs : list X) (s : S)
  : result S :=
  match xs with
  | [] => Ok s
  | x :: r => s' ← body s x; foldM body r s'
  end.

(** The same in the monad of the methods. *)
Fixpoint foldW {S X} (body : S → X → M S) (xs : list X) (s : S) : M S :=
  match xs with
  | [] => mret s
  | x :: r => s' ← body s x; foldW body r s'
  end.

(** Python's [for ... else]. An iteration ends with [Next] or leaves the
    loop with [Break]; the [else] suite runs when the loop ends without a
    [Break]. *)
Inductive flow : Set := Next | Break.

Fixpoint for_loop {S X} (body : S → X → result (S * flow)) (xs : list X)
  (s : S) : result (S * flow) :=
  match xs with
  | [] => Ok (s, Next)
  | x :: r =>
      sf ← body s x;
      match sf.2 with
      | Break => Ok (sf.1, Break)
      | Next => for_loop body r sf.1
      end
  end.

Definition for_else {S X} (body : S → X → result (S * flow)) (xs : list X)
  (orelse : S → result S) (s : S) : result S :=
  sf ← for_loop body xs s;
  match sf.2 with
  | Break => Ok sf.1
  | Next => orelse sf.1
  end.

(** [enumerate]. *)
Definition enumerate {A} (l : list A) : list (nat * A) := imap pair l.

(** ** numpy arrays *)

(** [np.array_split(l, n)]: [n] sections, the first [len(l) % n] of them
    one longer than the others; [ValueError] when [n] is not positive. *)
Definition np_array_split {A} (l : list A) (n : nat) : result (list (list A)) :=
  if n =? 0 then Raise ValueError
  else
    let each := length l / n in
    let extras := length l mod n in
    Ok (reshape (replicate extras (S each) ++ replicate (n - extras) each) l).

(** [int(np.ceil(n / 2))]. *)
Definition ceil_half (n : nat) : nat := (n + 1) / 2.

(** Writing the values of [ws] at their positions, in order: with a
    repeated position the last value wins. *)
Definition apply_writes {A} (a : list A) (ws : list (nat * A)) : list A :=
  foldl (λ acc iv, <[iv.1:=iv.2]> acc) a ws.

(** The values that [a[idx] = v] writes: [v] has to have one value per
    index, or a single value, which then goes to every index
    ([ValueError] otherwise). *)
Definition setitem_values {A} (idx : list nat) (v : list A) : result (list A) :=
  if length v =? length idx then Ok v
  else
    match v with
    | [x] => Ok (replicate (length idx) x)
    | _ => Raise ValueError
    end.

(** The writes of [a[idx] = v] on an array of length [n]; every index has
    to be in range ([IndexError]). *)
Definition setitem_writes {A} (n : nat) (idx : list nat) (v : list A)
  : result (list (nat * A)) :=
  if forallb (λ i, i <? n) idx then
    vs ← setitem_values idx v; Ok (zip idx vs)
  else Raise IndexError.

(** [a[idx] = v] for an index array [idx]. *)
Definition np_setitem {A} (a : list A) (idx : list nat) (v : list A)
  : result (list A) :=
  ws ← setitem_writes (length a) idx v; Ok (apply_writes a ws).

(** [a.reshape(shape)]: the flat values are kept, their number has to
    match the shape. *)
Definition np_reshape {A} (l : list A) (shape : nat * nat) : result (list A) :=
  if length l =? shape.1 * shape.2 then Ok l else Raise ValueError.

(** [np.vstack((a, b)).T] of two 1-D arrays, which must be equally long. *)
Definition np_vstack_T (a b : list Q) : result (list coord) :=
  if length a =? length b then Ok (zip a b) else Raise ValueError.

(** ** Nearest neighbours *)

(** The squared euclidean distance of two (latitude, longitude) points. *)
Definition sq_dist (a b : coord) : Q :=
  ((a.1 - b.1) * (a.1 - b.1) + (a.2 - b.2) * (a.2 - b.2))%Q.

(** The position and squared distance of the point of [l] nearest to [x],
    scanning from position [i] with the best found so far. *)
Fixpoint nearest_from (x : coord) (best : nat) (bd : Q) (i : nat)
  (l : list coord) : nat * Q :=
  match l with
  | [] => (best, bd)
  | s :: r =>
      if Qlt_bool (sq_dist x s) bd then nearest_from x i (sq_dist x s) (S i) r
      else nearest_from x best bd (S i) r
  end.

(** [cKDTree(data).query(x)] for one point: the position in [data] of a
    nearest point and its distance, here squared. Between equally near
    points the first one is taken. *)
Definition kd_query (data : list coord) (x : coord) : result (nat * Q) :=
  match data with
  | [] => Raise ValueError
  | s :: r => Ok (nearest_from x 0 (sq_dist x s) 1 r)
  end.

(** [dist > distance_upper_bound] on the squared distance: a distance is
    not negative, so it exceeds the bound when the bound is negative or
    when its square exceeds the square of the bound. *)
Definition exceeds (d2 bound : Q) : bool :=
  Qlt_bool bound 0 || Qlt_bool (bound * bound) d2.

(** ** Entries of a worker's result *)

(** One entry per gid: an index array, or the bare scalar that the
    fallback branches append. *)
Inductive ind_entry : Type :=
  | IndArr (l : list Z)
  | IndScalar (z : Z).

Definition entry_values (e : ind_entry) : list Z :=
  match e with
  | IndArr l => l
  | IndScalar z => [z]
  end.

(** [l[i]] of a Python list. *)
Definition py_index {A} (l : list A) (i : nat) : result A :=
  match l !! i with
  | Some x => Ok x
  | None => Raise IndexError
  end.

(** [pd.merge(left, right, left_on=.., right_on='gid', how='left')]
    projected on the [gen_gid] column: the rows of the left table in
    order, each once per matching right row, or once with a missing value
    when nothing matches. *)
Definition merge_left (res_gid : list Q) (gen_meta : list (Z * Z))
  : list (option Z) :=
  r ← res_gid;
  match filter (λ row, Qeq_bool r (inject_Z row.1) = true) gen_meta with
  | [] => [None]
  | rows => (λ row, Some row.2) <$> rows
  end.

Section Mapper.
Context (env : Env).

(** The property [TechMapping.distance_upper_bound]: the stored bound;
    without one the property opens the resource file with
    [Resource(self._fpath_map, str_decode=False)] to infer a bound from
    the latitudes and to store it in the object. *)
Definition distance_upper_bound (self : TechMapping) : M (Q * TechMapping) :=
  match _distance_upper_bound self with
  | Some q => mret (q, self)
  | None =>
      files ← get_fs;
      res ← lift (Resource__init__ files (_fpath_map self)
                    ["str_decode"%string]);
      lats ← lift (get_meta_arr res "latitude");
      q ← lift (infer_distance_upper_bound lats);
      mret (q, set_distance_upper_bound self q)
  end.

(** [TechMapping._check_fout], which reads [_fpath_out], [_fpath_excl] and
    [_dset] of the object under construction. Of the warnings that apply
    only the last one assigned is issued. *)
Definition _check_fout (fpath_out fpath_excl dset : string) : M unit :=
  files ← get_fs;
  msgs ← lift
    match files !! fpath_out with
    | None => Ok (None, false)
    | Some f =>
        let wmsg :=
          if bool_decide (is_Some (h5_attrs f !! "fpath_excl"%string)) then None
          else Some NoExclAttribute in
        recorded ←
          match h5_attrs f !! "fpath_excl"%string with
          | None => Raise KeyError
          | Some (AStr s) => Ok s
          | Some (ANum _) => Raise TypeError
          end;
        let wmsg :=
          if String.eqb (basename recorded) (basename fpath_excl) then wmsg
          else Some ExclMismatch in
        let emsg :=
          negb (bool_decide (is_Some (h5_dsets f !! "latitude"%string)))
          || negb (bool_decide (is_Some (h5_dsets f !! "longitude"%string))) in
        let wmsg :=
          if bool_decide (is_Some (h5_dsets f !! dset)) then Some DatasetReplaced
          else wmsg in
        Ok (wmsg, emsg)
    end;
  match msgs.1 with
  | Some w => emit (Warn w)
  | None => mret tt
  end;;
  if msgs.2 : bool then emit LogException;; raise FileInputError
  else mret tt.

(** [TechMapping.__init__]. *)
Definition __init__ (fpath_excl fpath_map fpath_out dset : string)
  (distance_upper_bound : option Q) (resolution n_cores : option nat)
  : M TechMapping :=
  _check_fout fpath_out fpath_excl dset;;
  let sc := new_extent env fpath_excl resolution in
  let n_cores := default (cpu_count env) n_cores in
  mret (mk_mapper distance_upper_bound fpath_excl fpath_map fpath_out dset
          sc (_res sc) n_cores).

(** [TechMapping._init_out_arrays]. *)
Definition _init_out_arrays (sc : SupplyCurveExtent) : list Z * list coord :=
  (replicate (excl_len sc) (-1)%Z, replicate (excl_len sc) (0%Q, 0%Q)).

(** The coordinates of the pixels of one window, as [_unpack_coords] gets
    them: from the cached datasets of the output file when that file
    exists, from the exclusion meta otherwise. *)
Definition window_coords (files : gmap string h5file) (sc : SupplyCurveExtent)
  (fpath_out : string) (rc : slice * slice) : result (list coord) :=
  if path_exists files fpath_out then
    match files !! fpath_out with
    | None => Raise OSError
    | Some f =>
        lat ← h5_read_window f "latitude" rc;
        lon ← h5_read_window f "longitude" rc;
        np_vstack_T lat lon
    end
  else Ok (excl_meta_window sc rc).

(** The running (min, max) pair of a bounding box. *)
Definition widen (range : option (Q * Q)) (lo hi : Q) : option (Q * Q) :=
  match range with
  | None => Some (lo, hi)
  | Some r => Some (Qmin r.1 lo, Qmax r.2 hi)
  end.

(** [TechMapping._unpack_coords]. *)
Definition _unpack_coords (files : gmap string h5file) (gids : list nat)
  (sc : SupplyCurveExtent) (fpath_out : string)
  : result (list (list coord) * option (Q * Q) * option (Q * Q)) :=
  foldM (λ '(coords_out, lat_range, lon_range) gid,
    emeta ← window_coords files sc fpath_out (get_excl_slices sc gid);
    lat_lo ← np_min (fst <$> emeta);
    lat_hi ← np_max (fst <$> emeta);
    lon_lo ← np_min (snd <$> emeta);
    lon_hi ← np_max (snd <$> emeta);
    Ok (coords_out ++ [emeta], widen lat_range lat_lo lat_hi,
        widen lon_range lon_lo lon_hi))
    gids ([], None, None).

(** The mask of the resource sites inside the bounding box grown by the
    margin. *)
Definition in_box (lat_range lon_range : Q * Q) (margin : Q) (site : coord)
  : bool :=
  Qlt_bool (lat_range.1 - margin) site.1
  && Qlt_bool site.1 (lat_range.2 + margin)
  && Qlt_bool (lon_range.1 - margin) site.2
  && Qlt_bool site.2 (lon_range.2 + margin).

(** [np.where(mask == True)[0]]. *)
Definition np_where (mask : list bool) : list nat :=
  omap (λ im, if im.2 : bool then Some im.1 else None) (enumerate mask).

(** [res_meta[mask, :]]. *)
Definition np_select {A} (l : list A) (mask : list bool) : list A :=
  omap (λ xm, if xm.2 : bool then Some xm.1 else None) (zip l mask).

(** The index array of one pixel block: per pixel the nearest site of the
    tree, translated through [mask_ind], or -1 when that site is farther
    than the bound. *)
Definition query_block (tree : list coord) (mask_ind : list nat)
  (distance_upper_bound : Q) (block : list coord) : result (list Z) :=
  mapM (M := result) (λ x,
    hit ← kd_query tree x;
    ind ← py_index mask_ind hit.1;
    Ok (if exceeds hit.2 distance_upper_bound then (-1)%Z else Z.of_nat ind))
    block.

(** [TechMapping.map_resource_gids], run against the files as they are
    when the worker reads them. *)
Definition map_resource_gids (files : gmap string h5file) (gids : list nat)
  (fpath_excl fpath_res fpath_out : string) (distance_upper_bound : Q)
  (resolution : nat) (margin : Q)
  : result (list ind_entry * list (list coord)) :=
  (* the log line reads gids[0] *)
  (if gids is [] then Raise IndexError else Ok tt);;
  let sc := new_extent env fpath_excl (Some resolution) in
  unpacked ← _unpack_coords files gids sc fpath_out;
  let '(coords_out, lat_range, lon_range) := unpacked in
  res ← Resource__init__ files fpath_res ["str_decode"%string];
  lat ← get_meta_arr res "latitude";
  lon ← get_meta_arr res "longitude";
  res_meta ← np_vstack_T lat lon;
  lat_range ← (if lat_range is Some r then Ok r else Raise TypeError);
  lon_range ← (if lon_range is Some r then Ok r else Raise TypeError);
  let mask := in_box lat_range lon_range margin <$> res_meta in
  let mask_ind := np_where mask in
  ind_out ←
    (if 0 <? length (filter (λ b : bool, b = true) mask) then
       let res_tree := np_select res_meta mask in
       foldM (λ ind_out i,
         block ← py_index coords_out i;
         ind ← query_block res_tree mask_ind distance_upper_bound block;
         Ok (ind_out ++ [IndArr ind]))
         (seq 0 (length gids)) []
     else
       Ok (foldl (λ ind_out _, ind_out ++ [IndScalar (-1)]) [] gids));
  Ok (ind_out, coords_out).

(** A (latitude, longitude) row as the float32 array [coords_all] takes
    it. *)
Definition float32_coord (c : coord) : coord :=
  (np_float32 c.1, np_float32 c.2).

(** The scatter of one finished batch into the full arrays; the
    coordinate array is a float32 array. *)
Definition scatter_resource (sc : SupplyCurveExtent) (gid_set : list nat)
  (res : list ind_entry * list (list coord)) (out : list Z * list coord)
  : result (list Z * list coord) :=
  foldM (λ '(ind_all, coords_all) '(j, gid),
    let i_out_arr := get_flat_excl_ind sc gid in
    ind ← py_index res.1 j;
    ind_all ← np_setitem ind_all i_out_arr (entry_values ind);
    block ← py_index res.2 j;
    coords_all ← np_setitem coords_all i_out_arr (float32_coord <$> block);
    Ok (ind_all, coords_all))
    (enumerate gid_set) out.

(** The submission loop of the two passes: the arguments of a batch are
    evaluated, which may read a property of the object, and the batch is
    handed to the pool. *)
Definition submit_all {X} (args : TechMapping → M (X * TechMapping))
  (self : TechMapping) (gid_chunks : list (list nat))
  : M (TechMapping * list (list nat * X)) :=
  foldW (λ '(self, futures) '(i, gid_set),
    '(x, self) ← args self;
    emit (Submit i);;
    mret (self, futures ++ [(gid_set, x)]))
    (enumerate gid_chunks) (self, []).

(** The collection loop of [_parallel_resource_map]: the batches finish
    in the order [completed], a list of batch numbers that the pool
    decides, and the result of each is scattered as it arrives. *)
Definition collect_resource (files : gmap string h5file) (self : TechMapping)
  (futures : list (list nat * Q)) (completed : list nat)
  (out : list Z * list coord) : result (list Z * list coord) :=
  foldM (λ out i,
    future ← py_index futures i;
    res ← map_resource_gids files future.1 (_fpath_excl self)
            (_fpath_map self) (_fpath_out self) future.2 (_resolution self)
            0.1%Q;
    scatter_resource (_sc self) future.1 res out)
    completed out.

(** [TechMapping._parallel_resource_map]. *)
Definition _parallel_resource_map (self : TechMapping) (completed : list nat)
  : M (TechMapping * (list Z * list coord)) :=
  let gids := seq 0 (sc_len (_sc self)) in
  gid_chunks ← lift (np_array_split gids (ceil_half (length gids)));
  let out := _init_out_arrays (_sc self) in
  (* ProcessPoolExecutor refuses a pool without workers *)
  (if _n_cores self =? 0 then raise ValueError else mret tt);;
  '(self, futures) ← submit_all distance_upper_bound self gid_chunks;
  files ← get_fs;
  out ← lift (collect_resource files self futures completed out);
  mret (self, out).

(** The generation meta with its two columns [gid] and [gen_gid]. *)
Definition gen_meta_table (fpath_gen : string) : list (Z * Z) :=
  (λ ig, (ig.2, Z.of_nat ig.1)) <$> enumerate (outputs_meta_gid env fpath_gen).

(** The body of the loop of [map_gen_gids]: the generation indices of the
    pixels of one gid. The result of [astype] is dropped by the source, the
    values stay as they are. *)
Definition gen_block (files : gmap string h5file) (sc : SupplyCurveExtent)
  (gen_meta : list (Z * Z)) (fpath_out res_map_dset : string) (gid : nat)
  : result (list Z) :=
  f ← (if files !! fpath_out is Some f then Ok f else Raise OSError);
  res_gid ← h5_read_window f res_map_dset (get_excl_slices sc gid);
  Ok (default (-1)%Z <$> merge_left res_gid gen_meta).

(** [TechMapping.map_gen_gids]. The loop over the gids has no [break]. *)
Definition map_gen_gids (files : gmap string h5file) (gids : list nat)
  (fpath_excl fpath_gen fpath_out res_map_dset : string) (resolution : nat)
  : result (list ind_entry) :=
  (if gids is [] then Raise IndexError else Ok tt);;
  let sc := new_extent env fpath_excl (Some resolution) in
  let gen_meta := gen_meta_table fpath_gen in
  for_else
    (λ gen_gids_out gid,
      gen_gids ← gen_block files sc gen_meta fpath_out res_map_dset gid;
      Ok (gen_gids_out ++ [IndArr gen_gids], Next))
    gids
    (λ gen_gids_out,
      Ok (foldl (λ out _, out ++ [IndScalar (-1)]) gen_gids_out gids))
    [].

(** The scatter of one finished batch of the generation pass. *)
Definition scatter_gen (sc : SupplyCurveExtent) (gid_set : list nat)
  (res : list ind_entry) (gen_gids_all : list Z) : result (list Z) :=
  foldM (λ gen_gids_all '(j, gid),
    let i_out_arr := get_flat_excl_ind sc gid in
    ind ← py_index res j;
    np_setitem gen_gids_all i_out_arr (entry_values ind))
    (enumerate gid_set) gen_gids_all.

(** The collection loop of [_parallel_gen_map]. *)
Definition collect_gen (files : gmap string h5file) (self : TechMapping)
  (res_map_dset : string) (futures : list (list nat * unit))
  (completed : list nat) (gen_gids_all : list Z) : result (list Z) :=
  foldM (λ out i,
    future ← py_index futures i;
    res ← map_gen_gids files future.1 (_fpath_excl self) (_fpath_map self)
            (_fpath_out self) res_map_dset (_resolution self);
    scatter_gen (_sc self) future.1 res out)
    completed gen_gids_all.

(** [TechMapping._parallel_gen_map]. *)
Definition _parallel_gen_map (self : TechMapping) (res_map_dset : string)
  (completed : list nat) : M (list Z) :=
  files ← get_fs;
  match files !! _fpath_out self with
  | None => raise FileInputError
  | Some f =>
      if bool_decide (is_Some (h5_dsets f !! res_map_dset)) then mret tt
      else raise FileInputError
  end;;
  let gids := seq 0 (sc_len (_sc self)) in
  gid_chunks ← lift (np_array_split gids (ceil_half (length gids)));
  let gen_gids_all := (_init_out_arrays (_sc self)).1 in
  (if _n_cores self =? 0 then raise ValueError else mret tt);;
  '(self, futures) ← submit_all (λ self, mret (tt, self)) self gid_chunks;
  files ← get_fs;
  lift (collect_gen files self res_map_dset futures completed gen_gids_all).

(** [dset[...] = data] for a stored dataset of shape [dst] and an array of
    shape [src]: h5py repeats the array along an axis where it has length
    one, and refuses other shapes that differ. *)
Definition h5_broadcast {A} (src dst : nat * nat) (l : list A)
  : result (list A) :=
  if ((src.1 =? dst.1) || (src.1 =? 1)) && ((src.2 =? dst.2) || (src.2 =? 1))
  then
    Ok (r ← seq 0 dst.1;
        c ← seq 0 dst.2;
        option_list (l !! ((if src.1 =? dst.1 then r else 0) * src.2
                           + (if src.2 =? dst.2 then c else 0))))
  else Raise TypeError.

(** Integer values written into a dataset take its type. *)
Definition cast_into (stored : h5data) (vals : list Z) : h5data :=
  match stored with
  | F32 _ => F32 (inject_Z <$> vals)
  | I32 _ => I32 vals
  end.

Definition set_dset (f : h5file) (name : string) (d : dataset) : h5file :=
  mk_h5file (h5_attrs f) (<[name:=d]> (h5_dsets f)).

Definition set_ds_attr (d : dataset) (key : string) (a : attr) : dataset :=
  mk_dataset (ds_shape d) (ds_data d) (<[key:=a]> (ds_attrs d)).

(** The path that [save_tech_map] writes to. *)
Definition h5_path (fpath_out : string) : string :=
  if endswith fpath_out ".h5" then fpath_out else (fpath_out +:+ ".h5")%string.

(** [TechMapping.save_tech_map]; the chunk layout of the datasets is not
    part of the model. *)
Definition save_tech_map (self : TechMapping) (ind : list Z)
  (coords : option (list coord)) (fpath_out dset : string) : M TechMapping :=
  let fpath_out := h5_path fpath_out in
  let shape := excl_shape (_sc self) in
  files ← get_fs;
  (if negb (path_exists files fpath_out) then
     match coords with
     | Some coords =>
         let f := mk_h5file ∅ ∅ in
         put_file fpath_out f;;
         lat ← lift (np_reshape (fst <$> coords) shape);
         let f := set_dset f "latitude" (mk_dataset shape (F32 lat) ∅) in
         put_file fpath_out f;;
         lon ← lift (np_reshape (snd <$> coords) shape);
         let f := set_dset f "longitude" (mk_dataset shape (F32 lon) ∅) in
         put_file fpath_out f;;
         put_file fpath_out
           (mk_h5file (<["fpath_excl"%string:=AStr (_fpath_excl self)]> (h5_attrs f))
              (h5_dsets f))
     | None => mret tt
     end
   else mret tt);;
  files ← get_fs;
  (* mode 'a' creates a missing file *)
  let f := default (mk_h5file ∅ ∅) (files !! fpath_out) in
  put_file fpath_out f;;
  data ← lift (np_reshape ind shape);
  d ← lift
    match h5_dsets f !! dset with
    | Some d =>
        vals ← h5_broadcast shape (ds_shape d) data;
        Ok (mk_dataset (ds_shape d) (cast_into (ds_data d) vals) (ds_attrs d))
    | None => Ok (mk_dataset shape (I32 data) ∅)
    end;
  put_file fpath_out (set_dset f dset d);;
  let d := set_ds_attr d "fpath" (AStr (_fpath_map self)) in
  put_file fpath_out (set_dset f dset d);;
  '(bound, self) ← distance_upper_bound self;
  let d := set_ds_attr d "distance_upper_bound" (ANum bound) in
  put_file fpath_out (set_dset f dset d);;
  mret self.

(** [TechMapping.run_resource_map]; the keyword arguments are those of
    [__init__]. *)
Definition run_resource_map (fpath_excl fpath_res fpath_out res_map_dset : string)
  (distance_upper_bound : option Q) (resolution n_cores : option nat)
  (completed : list nat) : M unit :=
  mapper ← __init__ fpath_excl fpath_res fpath_out res_map_dset
              distance_upper_bound resolution n_cores;
  '(mapper, (ind, coords)) ← _parallel_resource_map mapper completed;
  save_tech_map mapper ind (Some coords) fpath_out res_map_dset;;
  mret tt.

(** [TechMapping.run_gen_map]. *)
Definition run_gen_map (fpath_excl fpath_gen fpath_out gen_map_dset
  res_map_dset : string) (distance_upper_bound : option Q)
  (resolution n_cores : option nat) (completed : list nat) : M unit :=
  mapper ← __init__ fpath_excl fpath_gen fpath_out gen_map_dset
              distance_upper_bound resolution n_cores;
  ind ← _parallel_gen_map mapper res_map_dset completed;
  save_tech_map mapper ind None fpath_out gen_map_dset;;
  mret tt.

End Mapper.

(** The defaults of the keyword arguments of [__init__]. *)
Definition default_distance_upper_bound : option Q := Some 0.03%Q.
Definition default_resolution : option nat := Some 2560.
Definition default_n_cores : option nat := None.

(** ** Notions used by the statements *)

(** The events that a step adds hold no submission to the pool. *)
Definition quiet (new : list event) : Prop := ∀ i, Submit i ∉ new.

(** The writes of the scatter of one gid of a finished batch of the
    resource pass, into arrays of length [n]. *)
Definition gid_writes (sc : SupplyCurveExtent) (n : nat)
  (res : list ind_entry * list (list coord)) (jg : nat * nat)
  : result (list (nat * Z) * list (nat * coord)) :=
  let i_out_arr := get_flat_excl_ind sc jg.2 in
  ind ← py_index res.1 jg.1;
  wi ← setitem_writes n i_out_arr (entry_values ind);
  block ← py_index res.2 jg.1;
  wc ← setitem_writes n i_out_arr (float32_coord <$> block);
  Ok (wi, wc).

(** Writing into the index array and into the coordinate array. *)
Definition write_both {A B} (s : list A * list B)
  (w : list (nat * A) * list (nat * B)) : list A * list B :=
  (apply_writes s.1 w.1, apply_writes s.2 w.2).


(** The datasets of an output file have the shape of the exclusion raster
    and as many values. *)
Definition file_fits (sc : SupplyCurveExtent) (f : h5file) : Prop :=
  map_Forall (λ _ d,
    ds_shape d = excl_shape sc
    ∧ length (ds_values d) = (excl_shape sc).1 * (excl_shape sc).2)
    (h5_dsets f).

(** The content of the output file once [save_tech_map] has written the
    index dataset into the content [f], with the bound that it records. *)
Definition written_file (self : TechMapping) (ind : list Z) (dset : string)
  (bound : Q) (f : h5file) : result h5file :=
  let shape := excl_shape (_sc self) in
  data ← np_reshape ind shape;
  d ← match h5_dsets f !! dset with
      | Some d =>
          vals ← h5_broadcast shape (ds_shape d) data;
          Ok (mk_dataset (ds_shape d) (cast_into (ds_data d) vals) (ds_attrs d))
      | None => Ok (mk_dataset shape (I32 data) ∅)
      end;
  Ok (set_dset f dset
        (set_ds_attr (set_ds_attr d "fpath" (AStr (_fpath_map self)))
           "distance_upper_bound" (ANum bound))).

(** The content that [save_tech_map] leaves in the output file, from the
    content [old] that it finds there. *)
Definition saved_file (self : TechMapping) (ind : list Z)
  (coords : option (list coord)) (dset : string) (bound : Q)
  (old : option h5file) : result h5file :=
  let shape := excl_shape (_sc self) in
  f ← match old, coords with
      | Some f, _ => Ok f
      | None, Some coords =>
          lat ← np_reshape (fst <$> coords) shape;
          lon ← np_reshape (snd <$> coords) shape;
          Ok (mk_h5file {["fpath_excl"%string:=AStr (_fpath_excl self)]}
                (<["longitude"%string:=mk_dataset shape (F32 lon) ∅]>
                   (<["latitude"%string:=mk_dataset shape (F32 lat) ∅]> ∅)))
      | None, None => Ok (mk_h5file ∅ ∅)
      end;
  written_file self ind dset bound f.

(** The writes of the scatter of one gid of a finished batch of the
    generation pass. *)
Definition gid_writes_gen (sc : SupplyCurveExtent) (n : nat)
  (res : list ind_entry) (jg : nat * nat) : result (list (nat * Z)) :=
  ind ← py_index res jg.1;
  setitem_writes n (get_flat_excl_ind sc jg.2) (entry_values ind).

(** The writes of one finished batch of the generation pass. *)
Definition batch_writes_gen (env : Env) (files : gmap string h5file)
  (self : TechMapping) (res_map_dset : string)
  (futures : list (list nat * unit)) (i : nat) : result (list (nat * Z)) :=
  future ← py_index futures i;
  res ← map_gen_gids env files future.1 (_fpath_excl self) (_fpath_map self)
          (_fpath_out self) res_map_dset (_resolution self);
  wss ← mapM (gid_writes_gen (_sc self) (excl_len (_sc self)) res)
          (enumerate future.1);
  Ok (mjoin wss).

(** What an entry [z] of a generation index map says about a pixel whose
    resource-map value is [r], for the [gid] column [col] of the
    generation meta: it is the position of [r] in the column, or -1 when
    [r] is not in the column. *)
Definition gen_entry_ok (col : list Z) (r z : Z) : Prop :=
  (∀ k, col !! k = Some r → z = Z.of_nat k) ∧ (r ∉ col → z = (-1)%Z).

(** What [_check_fout] asks of the content of the output path: nothing
    when no file is there, else a recorded exclusion path and the two
    coordinate datasets. *)
Definition check_passes (old : option h5file) : Prop :=
  match old with
  | None => True
  | Some f =>
      (∃ s, h5_attrs f !! "fpath_excl"%string = Some (AStr s))
      ∧ is_Some (h5_dsets f !! "latitude"%string)
      ∧ is_Some (h5_dsets f !! "longitude"%string)
  end.

(** The point [c] lies in the latitude and longitude ranges, which both
    are set. *)
Definition in_ranges (lat_range lon_range : option (Q * Q)) (c : coord)
  : Prop :=
  ∃ a b, lat_range = Some a ∧ lon_range = Some b ∧
    (a.1 <= c.1)%Q ∧ (c.1 <= a.2)%Q ∧ (b.1 <= c.2)%Q ∧ (c.2 <= b.2)%Q.

(** ** Example inputs *)

Module Ex.

(** A 2 x 2 raster cut into four one-pixel chunks. *)
Definition sc : SupplyCurveExtent :=
  mk_extent (2, 2) [(0, 0); (0, 1); (1, 0); (1, 1)]%Q 4 1
    (λ gid, (mk_slice (gid / 2) (gid / 2 + 1),
             mk_slice (gid mod 2) (gid mod 2 + 1))).

(** The generation file has simulated the resource sites 1 and 0, in
    this order. *)
Definition env : Env := mk_env (λ _ _, sc) (λ _, [1; 0]%Z) 4.

Definition mapper (bound : option Q) : TechMapping :=
  mk_mapper bound "excl.tif" "res.h5" "out.h5" "res_map" sc 1 4.

Definition empty_world : world := mk_world ∅ [].

(** An output file that holds the coordinate datasets but no attribute. *)
Definition file_coords_only : h5file :=
  mk_h5file ∅
    (<["longitude"%string:=mk_dataset (2, 2) (F32 [0; 1; 0; 1]%Q) ∅]>
       {["latitude"%string:=mk_dataset (2, 2) (F32 [0; 0; 1; 1]%Q) ∅]}).

Definition world_no_attribute : world :=
  mk_world {["out.h5"%string:=file_coords_only]} [].

(** An output file that holds a resource map of the raster. *)
Definition file_mapped : h5file :=
  mk_h5file {["fpath_excl"%string:=AStr "excl.tif"]}
    (<["res_map"%string:=
         mk_dataset (2, 2) (I32 [0; -1; -1; 1]%Z)
           (<["distance_upper_bound"%string:=ANum 0.03%Q]>
              {["fpath"%string:=AStr "res.h5"]})]>
       (h5_dsets file_coords_only)).

Definition world_mapped : world :=
  mk_world {["out.h5"%string:=file_mapped]} [].

End Ex.

(** ** More example inputs *)

Module ExMore.



(** The mapped file of [Ex], made from another exclusion layer. *)
Definition file_other_excl : h5file :=
  mk_h5file {["fpath_excl"%string:=AStr "/data/other.tif"]}
    (h5_dsets Ex.file_mapped).

Definition world_other_excl : world :=
  mk_world {["out.h5"%string:=file_other_excl]} [].

(** The raster of [Ex] with gids for its first row only. *)
Definition sc_first_row : SupplyCurveExtent :=
  mk_extent (excl_shape Ex.sc) (excl_meta Ex.sc) 2 1 (get_excl_slices Ex.sc).

End ExMore.

(** * Properties *)

(** ** Minima *)

Lemma foldl_Qmin_elem (l : list Q) x : foldl Qmin x l ∈ x :: l.
Proof.
  revert x. induction l as [|y l IH]; intros x; simpl; [set_solver|].
  specialize (IH (Qmin x y)). apply elem_of_cons in IH as [IH|IH].
  - rewrite IH. unfold Qmin, GenericMinMax.gmin.
    destruct (x ?= y)%Q; rewrite !elem_of_cons; auto.
  - rewrite !elem_of_cons; auto.
Qed.

Lemma foldl_Qmin_le_init (l : list Q) x : (foldl Qmin x l <= x)%Q.
Proof.
  revert x. induction l as [|z l IH]; intros x; simpl; [apply Qle_refl|].
  eapply Qle_trans; [apply IH|apply Q.le_min_l].
Qed.

Lemma foldl_Qmin_le (l : list Q) x y : y ∈ x :: l → (foldl Qmin x l <= y)%Q.
Proof.
  revert x. induction l as [|z l IH]; intros x Hy; simpl.
  - apply list_elem_of_singleton in Hy as ->. apply Qle_refl.
  - apply elem_of_cons in Hy as [->|Hy].
    + eapply Qle_trans; [apply foldl_Qmin_le_init|apply Q.le_min_l].
    + apply elem_of_cons in Hy as [->|Hy].
      * eapply Qle_trans; [apply foldl_Qmin_le_init|apply Q.le_min_r].
      * apply IH. by right.
Qed.

Lemma np_min_Ok l m : np_min l = Ok m → m ∈ l ∧ ∀ x, x ∈ l → (m <= x)%Q.
Proof.
  destruct l as [|x l]; simpl; [done|]. intros [= <-]. split.
  - apply foldl_Qmin_elem.
  - apply foldl_Qmin_le.
Qed.

(** ** Validation of a pre-existing output file *)

Lemma quiet_nil : quiet [].
Proof. intros i. apply not_elem_of_nil. Qed.

Lemma quiet_cons ev new : (∀ i, ev ≠ Submit i) → quiet new → quiet (ev :: new).
Proof.
  intros Hev Hq i [Heq|?]%elem_of_cons; [by eapply Hev|by eapply Hq].
Qed.

(** [_check_fout] leaves the files alone and only warns or logs; with no
    file there it does nothing, and with a recorded exclusion path the
    only exception it raises is [FileInputError]. *)
Lemma check_fout_world fpath_out fpath_excl dset w :
  ∃ new r,
    _check_fout fpath_out fpath_excl dset w
      = (mk_world (fs w) (events w ++ new), r) ∧
    quiet new ∧
    (fs w !! fpath_out = None → new = [] ∧ r = Ok tt) ∧
    (∀ e, r = Raise e →
       (∃ f s, fs w !! fpath_out = Some f ∧
               h5_attrs f !! "fpath_excl"%string = Some (AStr s)) →
       e = FileInputError).
Proof.
  destruct w as [files evs].
  unfold _check_fout, mbind, M_bind, get_fs, lift, emit, raise, mret, M_ret;
    simpl.
  destruct (files !! fpath_out) as [f|] eqn:Hf; simpl.
  2:{ exists [], (Ok tt). rewrite app_nil_r. repeat split; auto using quiet_nil.
      intros e [=]. }
  destruct (h5_attrs f !! "fpath_excl"%string) as [[s|q]|] eqn:Ha; simpl.
  - repeat case_bool_decide; repeat case_match; simpl in *;
      simplify_eq/=; rewrite <- ?app_assoc; simpl;
      try (eexists _, _; split; [reflexivity|]);
      try (exists [], (Ok tt); rewrite app_nil_r; split; [reflexivity|]);
      (split; [repeat apply quiet_cons; try apply quiet_nil; done|]);
      (split; [done|]); intros e [= <-] _; done.
  - exists [], (Raise TypeError). rewrite app_nil_r.
    repeat split; auto using quiet_nil; [done|].
    intros e _ (f' & s & [= <-] & Hs). congruence.
  - exists [], (Raise KeyError). rewrite app_nil_r.
    repeat split; auto using quiet_nil; [done|].
    intros e _ (f' & s & [= <-] & Hs). congruence.
Qed.

(** What [__init__] hands to the rest of a run, given what [_check_fout]
    did. *)
Lemma init_bind env fpath_excl fpath_map fpath_out dset bound resolution
  n_cores w new r {X} (k : TechMapping → M X) :
  _check_fout fpath_out fpath_excl dset w
    = (mk_world (fs w) (events w ++ new), r) →
  (__init__ env fpath_excl fpath_map fpath_out dset bound resolution n_cores
     ≫= k) w
  = match r with
    | Ok _ => k (mk_mapper bound fpath_excl fpath_map fpath_out dset
                   (new_extent env fpath_excl resolution)
                   (_res (new_extent env fpath_excl resolution))
                   (default (cpu_count env) n_cores))
                (mk_world (fs w) (events w ++ new))
    | Raise e => (mk_world (fs w) (events w ++ new), Raise e)
    end.
Proof.
  intros Hcheck. unfold __init__, mbind, M_bind. rewrite Hcheck. by destruct r.
Qed.

(** C5, on the code. A pre-existing output file with the two coordinate
    datasets and without the attribute [fpath_excl] makes [_check_fout]
    raise [KeyError]: the warning is prepared, but the attribute is read
    right after it, before anything is issued. *)
Theorem check_fout_missing_attribute fpath_out fpath_excl dset w f :
  fs w !! fpath_out = Some f →
  is_Some (h5_dsets f !! "latitude"%string) →
  is_Some (h5_dsets f !! "longitude"%string) →
  h5_attrs f !! "fpath_excl"%string = None →
  _check_fout fpath_out fpath_excl dset w = (w, Raise KeyError).
Proof.
  intros Hf _ _ Ha. unfold _check_fout, mbind, M_bind, get_fs, lift.
  rewrite Hf, Ha. reflexivity.
Qed.

Lemma check_fout_missing_attribute_witness :
  _check_fout "out.h5" "excl.tif" "res_map" Ex.world_no_attribute
    = (Ex.world_no_attribute, Raise KeyError).
Proof.
  apply (check_fout_missing_attribute "out.h5" "excl.tif" "res_map"
           Ex.world_no_attribute Ex.file_coords_only).
  - reflexivity.
  - vm_compute. by eexists.
  - vm_compute. by eexists.
  - reflexivity.
Defined.

(** ** The generation pass needs a finished resource pass *)

(** C7. When the output file is missing, or holds no dataset of the name
    given for the resource map, [run_gen_map] raises: no batch is
    submitted and the files stay as they were. The exception is
    [FileInputError] when the file is missing or records its exclusion
    path. *)
Theorem run_gen_map_requires_resource_map env fpath_excl fpath_gen fpath_out
  gen_map_dset res_map_dset bound resolution n_cores completed w :
  (fs w !! fpath_out = None ∨
   ∃ f, fs w !! fpath_out = Some f ∧ h5_dsets f !! res_map_dset = None) →
  ∃ e new,
    run_gen_map env fpath_excl fpath_gen fpath_out gen_map_dset res_map_dset
      bound resolution n_cores completed w
    = (mk_world (fs w) (events w ++ new), Raise e) ∧
    (∀ i, Submit i ∉ new) ∧
    ((fs w !! fpath_out = None ∨
      ∃ f s, fs w !! fpath_out = Some f ∧
             h5_attrs f !! "fpath_excl"%string = Some (AStr s)) →
     e = FileInputError).
Proof.
  intros Hpre.
  destruct (check_fout_world fpath_out fpath_excl gen_map_dset w)
    as (new & r & Hcheck & Hquiet & Hnone & Hkind).
  unfold run_gen_map. rewrite (init_bind _ _ _ _ _ _ _ _ _ _ _ _ Hcheck).
  destruct r as [[]|e].
  - exists FileInputError, new. split; [|done].
    unfold _parallel_gen_map, mbind, M_bind, get_fs, raise, mret, M_ret; simpl.
    destruct Hpre as [->|(f & -> & Hd)]; [done|].
    rewrite bool_decide_eq_false_2; [done|]. rewrite Hd. by intros [? ?].
  - exists e, new. split; [done|]. split; [done|].
    intros [Hn|Hs]; [by destruct (Hnone Hn)|by apply Hkind].
Qed.

Lemma run_gen_map_requires_resource_map_witness :
  ∃ e new,
    run_gen_map Ex.env "excl.tif" "gen.h5" "out.h5" "gen_map" "res_map"
      default_distance_upper_bound default_resolution default_n_cores [0; 1]
      Ex.empty_world
    = (mk_world ∅ ([] ++ new), Raise e) ∧
    (∀ i, Submit i ∉ new) ∧
    (((∅ : gmap string h5file) !! "out.h5"%string = None ∨
      ∃ f s, (∅ : gmap string h5file) !! "out.h5"%string = Some f ∧
             h5_attrs f !! "fpath_excl"%string = Some (AStr s)) →
     e = FileInputError).
Proof.
  apply (run_gen_map_requires_resource_map Ex.env "excl.tif" "gen.h5" "out.h5"
           "gen_map" "res_map" default_distance_upper_bound default_resolution
           default_n_cores [0; 1] Ex.empty_world).
  left. reflexivity.
Defined.

(** ** Loops that append *)

Lemma bind_Ok {A B} (a : A) (f : A → result B) : (Ok a ≫= f) = f a.
Proof. reflexivity. Qed.

Lemma bind_Raise {A B} (e : exn) (f : A → result B) : (Raise e ≫= f) = Raise e.
Proof. reflexivity. Qed.

Lemma mapM_result_Ok {A B} (f : A → result B) l ys :
  mapM f l = Ok ys ↔ Forall2 (λ x y, f x = Ok y) l ys.
Proof.
  revert ys. induction l as [|x l IH]; intros ys; simpl.
  - split; [intros [= <-]; constructor|by inversion 1].
  - unfold mbind, result_bind, mret, result_ret.
    destruct (f x) as [y|e] eqn:Hy; [|split; [done|inversion 1; congruence]].
    fold (mapM f l).
    destruct (mapM f l) as [k|e] eqn:Hk.
    + split.
      * intros [= <-]. constructor; [done|]. by apply IH.
      * inversion 1 as [|? y' ? k' Hy' Hk']; simplify_eq.
        apply IH in Hk'. congruence.
    + split; [done|]. inversion 1 as [|? y' ? k' Hy' Hk']; simplify_eq.
      apply IH in Hk'. congruence.
Qed.

Lemma for_loop_append {X Y Z} (g : X → result Y) (h : Y → Z) xs s :
  for_loop (λ s x, y ← g x; Ok (s ++ [h y], Next)) xs s
  = (ys ← mapM g xs; Ok (s ++ (h <$> ys), Next)).
Proof.
  revert s. induction xs as [|x xs IH]; intros s; simpl.
  - by rewrite app_nil_r.
  - unfold mbind, result_bind, mret, result_ret in *.
    destruct (g x) as [y|e]; [|done]. simpl. rewrite IH. fold (mapM g xs).
    destruct (mapM g xs); [|done]. simpl. by rewrite <- app_assoc.
Qed.

Lemma foldl_append_const {X Z} (c : Z) (xs : list X) s :
  foldl (λ out _, out ++ [c]) s xs = s ++ replicate (length xs) c.
Proof.
  revert s. induction xs as [|x xs IH]; intros s; simpl.
  - by rewrite app_nil_r.
  - rewrite IH, <- app_assoc. done.
Qed.

(** ** The worker of the generation pass *)

(** What [map_gen_gids] returns: the blocks of the gids, followed by what
    the [else] suite of the loop appends. *)
Lemma map_gen_gids_eq env files gids fpath_excl fpath_gen fpath_out
  res_map_dset resolution :
  gids ≠ [] →
  map_gen_gids env files gids fpath_excl fpath_gen fpath_out res_map_dset
    resolution
  = (blocks ← mapM (gen_block files (new_extent env fpath_excl (Some resolution))
                      (gen_meta_table env fpath_gen) fpath_out res_map_dset)
                gids;
     Ok ((IndArr <$> blocks) ++ replicate (length gids) (IndScalar (-1)))).
Proof.
  intros Hne. unfold map_gen_gids, for_else.
  destruct gids as [|g gids]; [done|]. clear Hne.
  rewrite bind_Ok, (for_loop_append _ IndArr).
  destruct (mapM _ _); [|done]. rewrite !bind_Ok. cbn [snd fst].
  by rewrite foldl_append_const.
Qed.

(** C4, on the code. For a batch with at least one gid for which the loop
    fills in a block per gid, the [else] suite of the loop runs all the
    same, the loop having no [break]: the list returned holds the blocks
    and then one scalar -1 per gid, twice as many entries as gids. *)
Theorem map_gen_gids_else_runs env files gids fpath_excl fpath_gen fpath_out
  res_map_dset resolution blocks :
  gids ≠ [] →
  mapM (gen_block files (new_extent env fpath_excl (Some resolution))
          (gen_meta_table env fpath_gen) fpath_out res_map_dset) gids
    = Ok blocks →
  map_gen_gids env files gids fpath_excl fpath_gen fpath_out res_map_dset
    resolution
    = Ok ((IndArr <$> blocks) ++ replicate (length gids) (IndScalar (-1))) ∧
  length ((IndArr <$> blocks) ++ replicate (length gids) (IndScalar (-1)))
    = 2 * length gids.
Proof.
  intros Hne Hblocks. rewrite map_gen_gids_eq, Hblocks by done.
  split; [done|].
  apply mapM_result_Ok, Forall2_length in Hblocks.
  rewrite length_app, length_fmap, length_replicate. lia.
Qed.

Lemma map_gen_gids_else_runs_witness :
  map_gen_gids Ex.env (fs Ex.world_mapped) [0; 1] "excl.tif" "gen.h5" "out.h5"
    "res_map" 1
    = Ok ((IndArr <$> [[1]; [-1]]%Z) ++ replicate (length [0; 1]) (IndScalar (-1))) ∧
  length ((IndArr <$> [[1]; [-1]]%Z) ++ replicate (length [0; 1]) (IndScalar (-1)))
    = 2 * length [0; 1].
Proof.
  apply (map_gen_gids_else_runs Ex.env (fs Ex.world_mapped) [0; 1] "excl.tif"
           "gen.h5" "out.h5" "res_map" 1 [[1]; [-1]]%Z).
  - discriminate.
  - vm_compute. reflexivity.
Defined.

(** ** Writes *)

Section writes.
Context {A : Type}.
Implicit Types (a : list A) (ws : list (nat * A)).

Lemma apply_writes_app a ws1 ws2 :
  apply_writes a (ws1 ++ ws2) = apply_writes (apply_writes a ws1) ws2.
Proof. apply foldl_app. Qed.

Lemma apply_writes_cons a i x ws :
  apply_writes a ((i, x) :: ws) = apply_writes (<[i:=x]> a) ws.
Proof. reflexivity. Qed.

Lemma length_apply_writes a ws : length (apply_writes a ws) = length a.
Proof.
  revert a. induction ws as [|[i x] ws IH]; intros a; [done|].
  by rewrite apply_writes_cons, IH, length_insert.
Qed.

Lemma apply_writes_lookup_notin a ws p :
  p ∉ ws.*1 → apply_writes a ws !! p = a !! p.
Proof.
  revert a. induction ws as [|[i x] ws IH]; intros a Hp; [done|].
  rewrite fmap_cons, not_elem_of_cons in Hp. destruct Hp as [Hne Hp].
  rewrite apply_writes_cons, IH by done.
  by rewrite list_lookup_insert_ne.
Qed.

Lemma apply_writes_lookup_in a ws p v :
  NoDup ws.*1 → (p, v) ∈ ws → p < length a →
  apply_writes a ws !! p = Some v.
Proof.
  revert a. induction ws as [|[i x] ws IH]; intros a Hnd Hin Hp.
  - by apply elem_of_nil in Hin.
  - rewrite fmap_cons in Hnd. apply NoDup_cons in Hnd as [Hi Hnd].
    rewrite apply_writes_cons.
    apply elem_of_cons in Hin as [[= <- <-]|Hin].
    + rewrite apply_writes_lookup_notin by done.
      by apply list_lookup_insert_eq.
    + apply IH; [done..|]. by rewrite length_insert.
Qed.

End writes.

Lemma setitem_writes_Ok {A} n idx (v : list A) ws :
  setitem_writes n idx v = Ok ws →
  ws.*1 = idx ∧ Forall (λ i, i < n) idx ∧
  (ws = zip idx v ∧ length v = length idx ∨
   ∃ x, v = [x] ∧ ws = zip idx (replicate (length idx) x)).
Proof.
  unfold setitem_writes, setitem_values.
  destruct (forallb _ idx) eqn:Hall; [|done].
  assert (Forall (λ i, i < n) idx) as Hlt.
  { apply Forall_forall. intros i Hi. rewrite forallb_forall in Hall.
    apply Nat.ltb_lt, Hall. by apply list_elem_of_In. }
  destruct (Nat.eqb_spec (length v) (length idx)) as [Hlen|Hlen].
  - rewrite bind_Ok. intros [= <-]. split; [|split; [done|by left]].
    apply fst_zip. lia.
  - destruct v as [|x [|??]]; try done. rewrite bind_Ok. intros [= <-].
    split; [|split; [done|right; by exists x]].
    apply fst_zip. rewrite length_replicate. lia.
Qed.

Lemma foldM_writes {S X W} (inv : S → Prop) (wr : X → result W)
  (act : S → W → S) (body : S → X → result S) :
  (∀ s x, inv s → body s x = (w ← wr x; Ok (act s w))) →
  (∀ s w, inv s → inv (act s w)) →
  ∀ xs s, inv s → foldM body xs s = (ws ← mapM wr xs; Ok (foldl act s ws)).
Proof.
  intros Hbody Hinv xs. induction xs as [|x xs IH]; intros s Hs; simpl; [done|].
  rewrite Hbody by done. unfold mbind, result_bind, mret, result_ret.
  destruct (wr x) as [w|e]; [|done]. rewrite IH by auto.
  unfold mbind, result_bind. fold (mapM wr xs). by destruct (mapM wr xs).
Qed.

Lemma foldl_write_both {A B} (s : list A * list B) ws :
  foldl write_both s ws
  = (apply_writes s.1 (ws ≫= fst), apply_writes s.2 (ws ≫= snd)).
Proof.
  revert s. induction ws as [|w ws IH]; intros [a b]; simpl; [done|].
  rewrite IH. simpl. by rewrite !apply_writes_app.
Qed.

Lemma scatter_resource_eq sc gid_set res a c n :
  length a = n → length c = n →
  scatter_resource sc gid_set res (a, c)
  = (wss ← mapM (gid_writes sc n res) (enumerate gid_set);
     Ok (apply_writes a (wss ≫= fst), apply_writes c (wss ≫= snd))).
Proof.
  intros Ha Hc. unfold scatter_resource.
  rewrite (foldM_writes (λ s, length s.1 = n ∧ length s.2 = n)
             (gid_writes sc n res) write_both); [|..|done].
  - destruct (mapM _ _); [|done]. rewrite !bind_Ok. by rewrite foldl_write_both.
  - intros [a' c'] [j gid] [Ha' Hc']. simpl in *. unfold gid_writes; simpl.
    destruct (py_index res.1 j) as [ind|]; [|done]. rewrite !bind_Ok.
    unfold np_setitem. rewrite Ha'.
    destruct (setitem_writes n _ (entry_values ind)) as [wi|]; [|done].
    rewrite !bind_Ok.
    destruct (py_index res.2 j) as [block|]; [|done]. rewrite !bind_Ok.
    rewrite Hc'.
    destruct (setitem_writes n _ (float32_coord <$> block)) as [wc|]; [|done].
    by rewrite !bind_Ok.
  - intros [a' c'] [wi wc] [Ha' Hc']; simpl in *.
    by rewrite !length_apply_writes.
Qed.

(** ** Batches *)

(** The sections of [np.array_split], put end to end, are the array. *)
Lemma np_array_split_Ok {A} (l : list A) n chunks :
  np_array_split l n = Ok chunks →
  mjoin chunks = l ∧ length chunks = n ∧ chunks ≠ [].
Proof.
  unfold np_array_split. destruct (Nat.eqb_spec n 0) as [|Hn]; [done|].
  intros [= <-]. pose proof (Nat.mod_upper_bound (length l) n Hn).
  assert (length (reshape (replicate (length l `mod` n) (S (length l / n))
                    ++ replicate (n - length l `mod` n) (length l / n)) l) = n)
    as Hlen by (rewrite length_reshape, length_app, !length_replicate; lia).
  split; [|split; [done|intros Hnil; rewrite Hnil in Hlen; simpl in Hlen; lia]].
  apply join_reshape.
  rewrite sum_list_with_app, !sum_list_replicate.
  pose proof (Nat.div_mod (length l) n Hn). nia.
Qed.

Lemma reshape_lengths {A} szs (l : list A) :
  sum_list szs ≤ length l →
  Forall2 (λ s (c : list A), length c = s) szs (reshape szs l).
Proof.
  revert l. induction szs as [|s szs IH]; intros l Hlen; simpl in *.
  - constructor.
  - constructor; [rewrite length_take; lia|].
    apply IH. rewrite length_drop. lia.
Qed.

Lemma ceil_half_pos n : n ≠ 0 → ceil_half n ≠ 0.
Proof.
  intros Hn. unfold ceil_half.
  pose proof (Nat.div_mod (n + 1) 2 ltac:(lia)) as Hdiv.
  pose proof (Nat.mod_upper_bound (n + 1) 2 ltac:(lia)) as Hmod.
  lia.
Qed.

(** The batches of [n] gids hold one or two gids each. *)
Lemma gid_chunks_lengths n chunks :
  np_array_split (seq 0 n) (ceil_half n) = Ok chunks →
  Forall (λ c : list nat, length c = 1 ∨ length c = 2) chunks.
Proof.
  unfold np_array_split. rewrite length_seq.
  destruct (Nat.eqb_spec (ceil_half n) 0) as [|Hk]; [intros; discriminate|].
  intros [= <-].
  unfold ceil_half in *. set (k := (n + 1) / 2) in *.
  pose proof (Nat.div_mod (n + 1) 2 ltac:(lia)) as Hdiv2.
  pose proof (Nat.mod_upper_bound (n + 1) 2 ltac:(lia)) as Hmod2.
  fold k in Hdiv2.
  pose proof (Nat.div_mod n k Hk) as Hdiv.
  pose proof (Nat.mod_upper_bound n k Hk) as Hmod.
  set (each := n / k) in *. set (extras := n mod k) in *.
  assert (each = 1 ∨ each = 2 ∧ extras = 0) as Heach by nia.
  eapply Forall2_Forall_r.
  - apply reshape_lengths.
    rewrite sum_list_with_app, !sum_list_replicate, length_seq. nia.
  - apply Forall_app. split.
    + destruct (decide (extras = 0)) as [He|He]; [rewrite He; constructor|].
      apply Forall_replicate. intros c ->. lia.
    + apply Forall_replicate. intros c ->. lia.
Qed.

(** ** Submission *)

(** No call of this module's can build the handler: both pass the
    keyword [str_decode], which [Resource.__init__] does not take. *)
Lemma Resource_str_decode files h5_file :
  Resource__init__ files h5_file ["str_decode"%string] = Raise TypeError.
Proof. reflexivity. Qed.

(** An access to the property returns the stored bound, or raises; it
    changes neither the world nor the object. *)
Lemma distance_upper_bound_eq self w :
  distance_upper_bound self w
  = match _distance_upper_bound self with
    | Some q => (w, Ok (q, self))
    | None => (w, Raise TypeError)
    end.
Proof.
  unfold distance_upper_bound. destruct (_distance_upper_bound self); [done|].
  unfold mbind at 1, M_bind at 1, get_fs at 1.
  unfold mbind at 1, M_bind at 1, lift at 1.
  by rewrite Resource_str_decode.
Qed.

Lemma distance_upper_bound_stored self v w :
  _distance_upper_bound self = Some v →
  distance_upper_bound self w = (w, Ok (v, self)).
Proof. intros Hv. by rewrite distance_upper_bound_eq, Hv. Qed.

(** Submission with arguments that do not depend on the state: one
    future per batch, submitted in order. *)
Lemma submit_loop_stable {X} (args : TechMapping → M (X * TechMapping))
  self x (chunks : list (list nat)) k futures w :
  (∀ w, args self w = (w, Ok (x, self))) →
  foldW (λ '(self, futures) '(i, gid_set),
      '(x, self) ← args self;
      emit (Submit i);;
      mret (self, futures ++ [(gid_set, x)]))
    (imap (λ i c, (k + i, c)) chunks) (self, futures) w
  = (mk_world (fs w) (events w ++ (Submit <$> seq k (length chunks))),
     Ok (self, futures ++ ((λ c, (c, x)) <$> chunks))).
Proof.
  intros Hargs. revert k futures w.
  induction chunks as [|c chunks IH]; intros k futures w; simpl.
  - rewrite !app_nil_r. by destruct w.
  - unfold mbind at 1, M_bind at 1. unfold mbind at 1, M_bind at 1.
    rewrite Hargs. unfold mbind at 1, M_bind at 1, emit at 1.
    unfold mret at 1, M_ret at 1.
    rewrite (imap_ext _ (λ i c, (S k + i, c))) by (intros; simpl; f_equal; lia).
    rewrite IH. simpl. rewrite Nat.add_0_r, <- !app_assoc. done.
Qed.

Lemma submit_all_stable {X} (args : TechMapping → M (X * TechMapping))
  self x chunks w :
  (∀ w, args self w = (w, Ok (x, self))) →
  submit_all args self chunks w
  = (mk_world (fs w) (events w ++ (Submit <$> seq 0 (length chunks))),
     Ok (self, (λ c, (c, x)) <$> chunks)).
Proof. intros Hargs. apply (submit_loop_stable args self x chunks 0 [] w Hargs). Qed.

(** Submission in the resource pass: the arguments of the first batch
    read the property, which raises when no bound is stored. *)
Lemma submit_all_bound self chunks w :
  chunks ≠ [] →
  submit_all distance_upper_bound self chunks w
  = match _distance_upper_bound self with
    | Some v =>
        (mk_world (fs w) (events w ++ (Submit <$> seq 0 (length chunks))),
         Ok (self, (λ c, (c, v)) <$> chunks))
    | None => (w, Raise TypeError)
    end.
Proof.
  intros Hne. destruct (_distance_upper_bound self) as [v|] eqn:Hv.
  - apply submit_all_stable. intros w0. by apply distance_upper_bound_stored.
  - destruct chunks as [|c chunks]; [done|].
    unfold submit_all, enumerate. rewrite imap_cons. simpl foldW.
    unfold mbind at 1, M_bind at 1. unfold mbind at 1, M_bind at 1.
    by rewrite distance_upper_bound_eq, Hv.
Qed.

Lemma snd_enumerate {A} (l : list A) : (enumerate l).*2 = l.
Proof.
  unfold enumerate. rewrite fmap_imap.
  rewrite (imap_ext _ (const id)) by done. by rewrite imap_const, list_fmap_id.
Qed.

Lemma enumerate_lookup {A} (l : list A) j x :
  enumerate l !! j = Some x ↔ x.1 = j ∧ l !! j = Some x.2.
Proof.
  unfold enumerate. rewrite list_lookup_imap. destruct x as [j' y]; simpl.
  destruct (l !! j); simpl; split; try done.
  - by intros [= <- <-].
  - by intros [<- [= <-]].
  - by intros [_ ?].
Qed.

(** Reading the batches by their numbers visits every gid once. *)
Lemma bind_seq_lookup {A B} (l : list A) (h : option A → list B) :
  seq 0 (length l) ≫= (λ i, h (l !! i)) = l ≫= (λ c, h (Some c)).
Proof.
  induction l as [|x l IH]; [done|]. simpl length.
  rewrite <- cons_seq, <- fmap_S_seq, !bind_cons, list_fmap_bind. simpl.
  f_equal. apply IH.
Qed.

Lemma gid_writes_keys sc n res jg w :
  gid_writes sc n res jg = Ok w →
  w.1.*1 = get_flat_excl_ind sc jg.2 ∧ w.2.*1 = get_flat_excl_ind sc jg.2.
Proof.
  unfold gid_writes.
  destruct (py_index res.1 jg.1) as [ind|]; [|done]. rewrite bind_Ok.
  destruct (setitem_writes n _ (entry_values ind)) as [wi|] eqn:Hwi; [|done].
  rewrite bind_Ok. destruct (py_index res.2 jg.1) as [block|]; [|done].
  rewrite bind_Ok.
  destruct (setitem_writes n _ (float32_coord <$> block)) as [wc|] eqn:Hwc;
    [|done].
  rewrite bind_Ok. intros [= <-]. simpl.
  apply setitem_writes_Ok in Hwi as [? _], Hwc as [? _]. done.
Qed.

Lemma gid_writes_all_keys sc n res (jgs : list (nat * nat)) wss :
  mapM (gid_writes sc n res) jgs = Ok wss →
  (wss ≫= fst).*1 = jgs.*2 ≫= get_flat_excl_ind sc ∧
  (wss ≫= snd).*1 = jgs.*2 ≫= get_flat_excl_ind sc.
Proof.
  rewrite mapM_result_Ok. induction 1 as [|jg w jgs wss Hw _ [IH1 IH2]]; [done|].
  apply gid_writes_keys in Hw as [Hw1 Hw2].
  rewrite fmap_cons, !bind_cons, !fmap_app, IH1, IH2, Hw1, Hw2. done.
Qed.

Lemma parallel_resource_map_eq env self completed w :
  _parallel_resource_map env self completed w
  = match np_array_split (seq 0 (sc_len (_sc self)))
            (ceil_half (length (seq 0 (sc_len (_sc self))))) with
    | Raise e => (w, Raise e)
    | Ok chunks =>
        if _n_cores self =? 0 then (w, Raise ValueError)
        else
          match submit_all distance_upper_bound self chunks w with
          | (w1, Ok (self1, futures)) =>
              (w1,
               match collect_resource env (fs w1) self1 futures completed
                       (_init_out_arrays (_sc self)) with
               | Ok out => Ok (self1, out)
               | Raise e => Raise e
               end)
          | (w1, Raise e) => (w1, Raise e)
          end
    end.
Proof.
  unfold _parallel_resource_map, mbind, M_bind, lift, raise, get_fs, mret,
    M_ret.
  destruct (np_array_split _ _) as [chunks|]; [|done].
  destruct (_n_cores self =? 0); [done|].
  destruct (submit_all _ _ _ _) as [w1 [[self1 futures]|]]; [|done].
  by destruct (collect_resource _ _ _ _ _ _).
Qed.

Lemma length_init_out_arrays sc :
  length (_init_out_arrays sc).1 = excl_len sc
  ∧ length (_init_out_arrays sc).2 = excl_len sc.
Proof. unfold _init_out_arrays. simpl. by rewrite !length_replicate. Qed.

Lemma unpack_coords_Ok files gids sc fpath_out cs lr lnr :
  _unpack_coords files gids sc fpath_out = Ok (cs, lr, lnr) →
  Forall2 (λ gid block,
    window_coords files sc fpath_out (get_excl_slices sc gid) = Ok block)
    gids cs.
Proof.
  unfold _unpack_coords.
  assert (∀ cs0 lr0 lnr0,
    foldM (λ '(coords_out, lat_range, lon_range) gid,
      emeta ← window_coords files sc fpath_out (get_excl_slices sc gid);
      lat_lo ← np_min (fst <$> emeta);
      lat_hi ← np_max (fst <$> emeta);
      lon_lo ← np_min (snd <$> emeta);
      lon_hi ← np_max (snd <$> emeta);
      Ok (coords_out ++ [emeta], widen lat_range lat_lo lat_hi,
          widen lon_range lon_lo lon_hi))
      gids (cs0, lr0, lnr0) = Ok (cs, lr, lnr) →
    ∃ cs', cs = cs0 ++ cs' ∧
      Forall2 (λ gid block,
        window_coords files sc fpath_out (get_excl_slices sc gid) = Ok block)
        gids cs') as Hgen.
  { induction gids as [|gid gids IH]; intros cs0 lr0 lnr0; simpl.
    - intros [= <- <- <-]. exists []. by rewrite app_nil_r.
    - destruct (window_coords _ _ _ _) as [emeta|] eqn:Hw; [|done].
      rewrite bind_Ok.
      destruct (np_min (fst <$> emeta)); [|done]. rewrite bind_Ok.
      destruct (np_max (fst <$> emeta)); [|done]. rewrite bind_Ok.
      destruct (np_min (snd <$> emeta)); [|done]. rewrite bind_Ok.
      destruct (np_max (snd <$> emeta)); [|done]. rewrite !bind_Ok.
      intros H. apply IH in H as (cs' & -> & Hall).
      exists (emeta :: cs'). split; [by rewrite <- app_assoc|].
      by constructor. }
  intros H. apply Hgen in H as (cs' & -> & Hall). done.
Qed.

Lemma setitem_writes_lookup {A} n idx (v : list A) ws k p :
  setitem_writes n idx v = Ok ws → idx !! k = Some p →
  p < n ∧ ∃ x, ws !! k = Some (p, x) ∧
               (v !! k = Some x ∧ length v = length idx ∨ v = [x]).
Proof.
  intros Hws Hk. apply setitem_writes_Ok in Hws as (_ & Hlt & Hor).
  split; [by eapply Forall_lookup_1 in Hlt|].
  destruct Hor as [[-> Hlen]|(x & -> & ->)].
  - destruct (lookup_lt_is_Some_2 v k) as [x Hx].
    { rewrite Hlen. by eapply lookup_lt_Some. }
    exists x. split; [|by left]. rewrite lookup_zip_with, Hk. simpl.
    by rewrite Hx.
  - exists x. split; [|by right]. rewrite lookup_zip_with, Hk. simpl.
    rewrite lookup_replicate_2; [done|by eapply lookup_lt_Some].
Qed.

(** ** The coordinates of a window *)

Lemma window_inds_lt R C rc p : p ∈ window_inds (R, C) rc → p < R * C.
Proof.
  unfold window_inds. simpl. intros Hp.
  apply list_elem_of_bind in Hp as (r & Hp & Hr).
  apply list_elem_of_bind in Hp as (c & Hp & Hc).
  apply list_elem_of_singleton in Hp as ->.
  apply elem_of_seq in Hr, Hc. nia.
Qed.

Lemma omap_total {A B} (f : A → option B) (l : list A) :
  Forall (λ x, is_Some (f x)) l → Forall2 (λ x y, f x = Some y) l (omap f l).
Proof.
  induction 1 as [|x l [y Hy] _ IH]; simpl; [constructor|].
  rewrite Hy. by constructor.
Qed.

(** ** Saving *)

Lemma save_tail self ind fpath dset (f : h5file) files evs w' self' :
  (files1 ← get_fs;
   let f := default (mk_h5file ∅ ∅) (files1 !! fpath) in
   put_file fpath f;;
   data ← lift (np_reshape ind (excl_shape (_sc self)));
   d ← lift
     match h5_dsets f !! dset with
     | Some d =>
         vals ← h5_broadcast (excl_shape (_sc self)) (ds_shape d) data;
         Ok (mk_dataset (ds_shape d) (cast_into (ds_data d) vals) (ds_attrs d))
     | None => Ok (mk_dataset (excl_shape (_sc self)) (I32 data) ∅)
     end;
   put_file fpath (set_dset f dset d);;
   let d := set_ds_attr d "fpath" (AStr (_fpath_map self)) in
   put_file fpath (set_dset f dset d);;
   '(bound, self) ← distance_upper_bound self;
   let d := set_ds_attr d "distance_upper_bound" (ANum bound) in
   put_file fpath (set_dset f dset d);;
   mret self) (mk_world (<[fpath:=f]> files) evs)
  = (w', Ok self') →
  ∃ v f',
    _distance_upper_bound self = Some v ∧
    written_file self ind dset v f = Ok f' ∧
    w' = mk_world (<[fpath:=f']> files) evs ∧
    self' = self.
Proof.
  unfold mbind at 1 2 3 4 5 6 7, M_bind at 1 2 3 4 5 6 7,
    get_fs, put_file, lift. cbn [fs events].
  rewrite lookup_insert_eq. cbn [default from_option id]. unfold written_file.
  destruct (np_reshape ind _) as [data|] eqn:Hdata; [|done].
  destruct (h5_dsets f !! dset) as [d0|] eqn:Hd0;
    [destruct (h5_broadcast (excl_shape (_sc self)) (ds_shape d0) data)
       as [vals|] eqn:Hvals; [|by rewrite bind_Raise]|].
  all: rewrite ?bind_Ok, distance_upper_bound_eq.
  all: destruct (_distance_upper_bound self) as [v|]; [|done].
  all: unfold mbind at 1, M_bind at 1, mret at 1, M_ret at 1;
    cbn [fs events].
  all: rewrite !insert_insert_eq; intros [= <- <-].
  all: exists v; eexists; (split; [done|]); (split; [|done]).
  - by rewrite bind_Ok, Hvals, !bind_Ok.
  - by rewrite !bind_Ok.
Qed.

(** What a finished [save_tech_map] has done: the object holds a bound,
    the file at the path with its suffix has the content [saved_file],
    and nothing else has changed. *)
Lemma save_tech_map_Ok self ind coords fpath_out dset w w' self' :
  save_tech_map self ind coords fpath_out dset w = (w', Ok self') →
  ∃ v f',
    _distance_upper_bound self = Some v ∧
    saved_file self ind coords dset v (fs w !! h5_path fpath_out) = Ok f' ∧
    w' = mk_world (<[h5_path fpath_out:=f']> (fs w)) (events w) ∧
    self' = self.
Proof.
  destruct w as [files evs]. unfold save_tech_map, saved_file.
  unfold mbind at 1 2, M_bind at 1 2, get_fs at 1. cbn [fs events].
  unfold path_exists.
  destruct (files !! h5_path fpath_out) as [f0|] eqn:Hf0.
  - rewrite bool_decide_eq_true_2 by by eexists. cbn [negb].
    unfold mret at 1, M_ret at 1.
    rewrite <- (insert_id files (h5_path fpath_out) f0) at 1 by done.
    intros H. apply save_tail in H as (v & f' & Hb & Hf' & -> & ->).
    exists v, f'. by rewrite bind_Ok.
  - rewrite bool_decide_eq_false_2 by by intros [? ?]. cbn [negb].
    destruct coords as [coords|].
    + unfold mbind at 1 2 3 4 5, M_bind at 1 2 3 4 5, put_file at 1 2 3 4,
        lift at 1 2.
      cbn [fs events].
      destruct (np_reshape (fst <$> coords) _) as [lat|]; [|done].
      destruct (np_reshape (snd <$> coords) _) as [lon|]; [|done].
      cbn [fs events].
      intros H. apply save_tail in H as (v & f' & Hb & Hf' & -> & ->).
      exists v, f'. rewrite !insert_insert_eq, !bind_Ok.
      split; [done|]. split; [exact Hf'|done].
    + unfold mret at 1, M_ret at 1.
      intros H.
      assert (∃ v f',
        _distance_upper_bound self = Some v ∧
        written_file self ind dset v (mk_h5file ∅ ∅) = Ok f' ∧
        w' = mk_world (<[h5_path fpath_out:=f']> files) evs ∧
        self' = self) as (v & f' & ?).
      { revert H.
        unfold mbind at 1 2 3 4 5 6 7, M_bind at 1 2 3 4 5 6 7,
          get_fs, put_file, lift. cbn [fs events].
        rewrite Hf0. cbn [default from_option id]. unfold written_file.
        destruct (np_reshape ind _) as [data|] eqn:Hdata; [|done].
        cbn [h5_dsets]. rewrite lookup_empty.
        rewrite ?bind_Ok, distance_upper_bound_eq.
        destruct (_distance_upper_bound self) as [v|] eqn:Hv; [|done].
        unfold mbind, M_bind, mret, M_ret, result_bind; cbn [fs events].
        rewrite !insert_insert_eq; intros [= <- <-].
        eexists v, _. split; [done|]. split; [reflexivity|done]. }
      exists v, f'. by rewrite bind_Ok.
Qed.

(** Reading a row-major array row by row gives the array back. *)
Lemma bind_row {A} (l : list A) off C :
  off + C ≤ length l →
  seq 0 C ≫= (λ c, option_list (l !! (off + c))) = take C (drop off l).
Proof.
  induction C as [|C IH]; intros Hlen; [by rewrite take_0|].
  rewrite seq_S, bind_app, IH by lia. simpl.
  destruct (lookup_lt_is_Some_2 l (off + C)) as [x Hx]; [lia|].
  rewrite Hx. simpl. symmetry. apply take_S_r. by rewrite lookup_drop.
Qed.

Lemma bind_rows {A} (l : list A) R C :
  R * C ≤ length l →
  seq 0 R ≫= (λ r, seq 0 C ≫= (λ c, option_list (l !! (r * C + c))))
  = take (R * C) l.
Proof.
  induction R as [|R IH]; intros Hlen; [by rewrite take_0|].
  rewrite seq_S, bind_app, IH by lia. simpl. rewrite app_nil_r.
  rewrite bind_row by lia.
  rewrite take_take_drop. f_equal. lia.
Qed.

Lemma h5_broadcast_same {A} shape (l : list A) :
  length l = shape.1 * shape.2 → h5_broadcast shape shape l = Ok l.
Proof.
  intros Hlen. unfold h5_broadcast. rewrite !Nat.eqb_refl. simpl.
  f_equal. rewrite bind_rows by lia. apply take_ge. lia.
Qed.

(** The index dataset that [save_tech_map] leaves in a file that fits the
    raster: the values of the index array, in the shape of the raster;
    the other datasets and the attributes of the file are kept. *)
Lemma written_file_dset self ind dset v f f' :
  file_fits (_sc self) f →
  written_file self ind dset v f = Ok f' →
  length ind = (excl_shape (_sc self)).1 * (excl_shape (_sc self)).2 ∧
  h5_attrs f' = h5_attrs f ∧
  (∀ name, name ≠ dset → h5_dsets f' !! name = h5_dsets f !! name) ∧
  ∃ d, h5_dsets f' !! dset = Some d ∧
       ds_shape d = excl_shape (_sc self) ∧
       ds_values d = inject_Z <$> ind ∧
       ds_attrs d !! "distance_upper_bound"%string = Some (ANum v).
Proof.
  intros Hfits. unfold written_file, np_reshape.
  destruct (Nat.eqb_spec (length ind)
              ((excl_shape (_sc self)).1 * (excl_shape (_sc self)).2))
    as [Hlen|]; [|done].
  rewrite bind_Ok.
  destruct (h5_dsets f !! dset) as [d0|] eqn:Hd0.
  - destruct (Hfits _ _ Hd0) as [Hshape _]. rewrite Hshape.
    rewrite h5_broadcast_same, !bind_Ok by done. intros [= <-].
    split; [done|]. split; [done|]. split.
    { intros name Hne. simpl. by rewrite lookup_insert_ne. }
    eexists. split; [apply lookup_insert_eq|]. split; [done|].
    split; [by destruct (ds_data d0)|]. apply lookup_insert_eq.
  - rewrite !bind_Ok. intros [= <-].
    split; [done|]. split; [done|]. split.
    { intros name Hne. simpl. by rewrite lookup_insert_ne. }
    eexists. split; [apply lookup_insert_eq|]. split; [done|].
    split; [done|]. apply lookup_insert_eq.
Qed.

Lemma bind_M_Ok {A B} (m : M A) (k : A → M B) w w' b :
  (m ≫= k) w = (w', Ok b) → ∃ a w1, m w = (w1, Ok a) ∧ k a w1 = (w', Ok b).
Proof.
  unfold mbind, M_bind. destruct (m w) as [w1 [a|e]]; [|done]. eauto.
Qed.

Lemma file_fits_fresh sc lat lon attrs :
  length lat = (excl_shape sc).1 * (excl_shape sc).2 →
  length lon = (excl_shape sc).1 * (excl_shape sc).2 →
  file_fits sc
    (mk_h5file attrs
       (<["longitude"%string:=mk_dataset (excl_shape sc) (F32 lon) ∅]>
          (<["latitude"%string:=mk_dataset (excl_shape sc) (F32 lat) ∅]> ∅))).
Proof.
  intros Hlat Hlon. unfold file_fits. simpl.
  apply map_Forall_insert_2; [done|].
  apply map_Forall_insert_2; [done|]. apply map_Forall_empty.
Qed.

(** The file that [save_tech_map] starts from fits the raster when the
    store does. *)
Lemma saved_file_dset self ind coords dset v old f' :
  (∀ f, old = Some f → file_fits (_sc self) f) →
  saved_file self ind coords dset v old = Ok f' →
  length ind = (excl_shape (_sc self)).1 * (excl_shape (_sc self)).2 ∧
  ∃ d, h5_dsets f' !! dset = Some d ∧
       ds_shape d = excl_shape (_sc self) ∧
       ds_values d = inject_Z <$> ind ∧
       ds_attrs d !! "distance_upper_bound"%string = Some (ANum v).
Proof.
  intros Hfits. unfold saved_file.
  destruct old as [f|].
  - rewrite bind_Ok. intros H.
    apply written_file_dset in H as (? & _ & _ & ?); [done|by apply Hfits].
  - destruct coords as [coords|].
    + unfold np_reshape at 1 2.
      destruct (length (fst <$> coords) =? _) eqn:Hlat; [|done].
      rewrite bind_Ok.
      destruct (length (snd <$> coords) =? _) eqn:Hlon; [|done].
      rewrite !bind_Ok. intros H.
      apply written_file_dset in H as (? & _ & _ & ?); [done|].
      apply file_fits_fresh; by apply Nat.eqb_eq.
    + rewrite bind_Ok. intros H.
      apply written_file_dset in H as (? & _ & _ & ?); [done|].
      unfold file_fits. simpl. apply map_Forall_empty.
Qed.

(** ** The generation pass *)

Lemma foldl_apply_writes {A} (a : list A) (wss : list (list (nat * A))) :
  foldl apply_writes a wss = apply_writes a (mjoin wss).
Proof.
  revert a. induction wss as [|ws wss IH]; intros a; simpl; [done|].
  by rewrite IH, apply_writes_app.
Qed.

Lemma scatter_gen_eq sc gid_set res a n :
  length a = n →
  scatter_gen sc gid_set res a
  = (wss ← mapM (gid_writes_gen sc n res) (enumerate gid_set);
     Ok (apply_writes a (mjoin wss))).
Proof.
  intros Ha. unfold scatter_gen.
  rewrite (foldM_writes (λ s, length s = n) (gid_writes_gen sc n res)
             apply_writes); [|..|done].
  - destruct (mapM _ _); [|done]. by rewrite !bind_Ok, foldl_apply_writes.
  - intros a' [j gid] Ha'. simpl. unfold gid_writes_gen, np_setitem; simpl.
    destruct (py_index res j) as [ind|]; [|done]. by rewrite !bind_Ok, Ha'.
  - intros a' ws Ha'. by rewrite length_apply_writes.
Qed.

Lemma collect_gen_eq env files self res_map_dset futures completed a :
  length a = excl_len (_sc self) →
  collect_gen env files self res_map_dset futures completed a
  = (bs ← mapM (batch_writes_gen env files self res_map_dset futures)
             completed;
     Ok (apply_writes a (mjoin bs))).
Proof.
  intros Ha. unfold collect_gen.
  rewrite (foldM_writes (λ s, length s = excl_len (_sc self))
             (batch_writes_gen env files self res_map_dset futures)
             apply_writes); [|..|done].
  - destruct (mapM _ _); [|done]. by rewrite !bind_Ok, foldl_apply_writes.
  - intros a' i Ha'. unfold batch_writes_gen.
    destruct (py_index futures i) as [future|]; [|done]. rewrite !bind_Ok.
    destruct (map_gen_gids _ _ _ _ _ _ _ _) as [res|]; [|done].
    rewrite !bind_Ok.
    rewrite (scatter_gen_eq _ _ _ _ (excl_len (_sc self))) by done.
    destruct (mapM _ _); [|done]. by rewrite !bind_Ok.
  - intros a' ws Ha'. by rewrite length_apply_writes.
Qed.

(** With a write to a position in range, the array holds there the value
    of one of the writes to it. *)
Lemma apply_writes_lookup_last {A} (a : list A) ws p :
  p ∈ ws.*1 → p < length a →
  ∃ x, (p, x) ∈ ws ∧ apply_writes a ws !! p = Some x.
Proof.
  revert a. induction ws as [|[i y] ws IH]; intros a Hp Hlt.
  - by apply elem_of_nil in Hp.
  - rewrite apply_writes_cons.
    destruct (decide (p ∈ ws.*1)) as [Hin|Hnin].
    + destruct (IH (<[i:=y]> a) Hin) as (x & Hx & Hlook);
        [by rewrite length_insert|].
      exists x. split; [by right|done].
    + rewrite fmap_cons in Hp. apply elem_of_cons in Hp as [->|?]; [|done].
      exists y. split; [left|].
      rewrite apply_writes_lookup_notin by done.
      by apply list_lookup_insert_eq.
Qed.

Lemma parallel_gen_map_Ok env self res_map_dset completed w w' ind :
  _parallel_gen_map env self res_map_dset completed w = (w', Ok ind) →
  ∃ chunks,
    np_array_split (seq 0 (sc_len (_sc self))) (ceil_half (sc_len (_sc self)))
      = Ok chunks ∧
    w' = mk_world (fs w) (events w ++ (Submit <$> seq 0 (length chunks))) ∧
    collect_gen env (fs w) self res_map_dset ((λ c, (c, tt)) <$> chunks)
      completed (_init_out_arrays (_sc self)).1 = Ok ind.
Proof.
  unfold _parallel_gen_map. intros H.
  apply bind_M_Ok in H as (files & w1 & Hget & H).
  unfold get_fs in Hget. injection Hget as <- <-.
  apply bind_M_Ok in H as ([] & w1 & Hcheck & H).
  assert (w1 = w) as ->.
  { destruct (fs w !! _fpath_out self); [|done].
    case_bool_decide; [|done]. by injection Hcheck as <-. }
  clear Hcheck. rewrite length_seq in H.
  apply bind_M_Ok in H as (chunks & w1 & Hsplit & H).
  unfold lift in Hsplit. injection Hsplit as <- Hsplit.
  apply bind_M_Ok in H as ([] & w1 & Hcores & H).
  assert (w1 = w) as ->.
  { destruct (_n_cores self =? 0); [done|]. by injection Hcores as <-. }
  clear Hcores.
  apply bind_M_Ok in H as ([self1 futures] & w1 & Hsubmit & H).
  rewrite (submit_all_stable _ self tt) in Hsubmit by done.
  injection Hsubmit as <- <- <-.
  apply bind_M_Ok in H as (files & w1 & Hget & H).
  unfold get_fs in Hget. injection Hget as <- <-.
  unfold lift in H. injection H as <- H. cbn [fs] in H.
  by exists chunks.
Qed.

Lemma Qeq_bool_inject a b : Qeq_bool (inject_Z a) (inject_Z b) = true ↔ a = b.
Proof. rewrite Qeq_bool_iff. apply inject_Z_injective. Qed.

Lemma gen_meta_table_elem env fpath_gen g z :
  (g, z) ∈ gen_meta_table env fpath_gen ↔
  ∃ k, outputs_meta_gid env fpath_gen !! k = Some g ∧ z = Z.of_nat k.
Proof.
  unfold gen_meta_table. rewrite list_elem_of_fmap. split.
  - intros ([k g'] & [= -> ->] & Hin). apply list_elem_of_lookup in Hin as [i Hi].
    apply enumerate_lookup in Hi as [<- Hi]. by exists k.
  - intros (k & Hk & ->). exists (k, g). split; [done|].
    apply list_elem_of_lookup. exists k. by apply enumerate_lookup.
Qed.

Lemma length_merge_left res_gid gen_meta :
  length res_gid ≤ length (merge_left res_gid gen_meta).
Proof.
  unfold merge_left. induction res_gid as [|r l IH]; [done|].
  rewrite bind_cons, length_app.
  remember (length (l ≫= _)) as n eqn:Hn. clear Hn.
  destruct (filter _ gen_meta); simpl; lia.
Qed.

(** A left join as long as its left table has, row by row, the one
    match of the row or a missing value. *)
Lemma merge_left_exact res_gid gen_meta k r :
  length (merge_left res_gid gen_meta) = length res_gid →
  res_gid !! k = Some r →
  let rows := filter (λ row : Z * Z, Qeq_bool r (inject_Z row.1) = true)
                gen_meta in
  (rows = [] ∧ merge_left res_gid gen_meta !! k = Some None) ∨
  (∃ row, rows = [row] ∧ merge_left res_gid gen_meta !! k = Some (Some row.2)).
Proof.
  unfold merge_left.
  set (cell := λ r : Q,
         match filter (λ row : Z * Z, Qeq_bool r (inject_Z row.1) = true)
                 gen_meta with
         | [] => [None]
         | rows => (λ row : Z * Z, Some row.2) <$> rows
         end).
  assert (∀ l, length l ≤ length (l ≫= cell)) as Hle.
  { intros l. apply (length_merge_left l gen_meta). }
  assert (∀ r0, (filter (λ row : Z * Z, Qeq_bool r0 (inject_Z row.1) = true)
                   gen_meta = [] ∧ cell r0 = [None]) ∨
                (∃ row, filter (λ row : Z * Z,
                          Qeq_bool r0 (inject_Z row.1) = true) gen_meta = [row]
                        ∧ cell r0 = [Some row.2]) ∨
                2 ≤ length (cell r0)) as Hcell.
  { intros r0. unfold cell.
    destruct (filter _ gen_meta) as [|row [|row' rows]]; simpl.
    - by left.
    - right. left. by exists row.
    - right. right. lia. }
  revert k. induction res_gid as [|r0 l IH]; intros k Hlen Hk; [done|].
  rewrite bind_cons in *. rewrite length_app in Hlen. simpl length in Hlen.
  specialize (Hle l).
  destruct (Hcell r0) as [[Hrows Hc]|[(row & Hrows & Hc)|Hc]]; [..|lia].
  - rewrite Hc in *. simpl length in Hlen.
    destruct k as [|k]; simpl in Hk.
    + injection Hk as <-. left. by rewrite Hrows.
    + simpl. apply IH; [lia|done].
  - rewrite Hc in *. simpl length in Hlen.
    destruct k as [|k]; simpl in Hk.
    + injection Hk as <-. right. exists row. by rewrite Hrows.
    + simpl. apply IH; [lia|done].
Qed.

(** A row of the left join, for an integer resource-map value. *)
Lemma merge_left_entry env fpath_gen (rs : list Z) k r z :
  length (merge_left (inject_Z <$> rs) (gen_meta_table env fpath_gen))
    = length rs →
  rs !! k = Some r →
  (default (-1)%Z <$> merge_left (inject_Z <$> rs)
                        (gen_meta_table env fpath_gen)) !! k = Some z →
  gen_entry_ok (outputs_meta_gid env fpath_gen) r z.
Proof.
  intros Hlen Hk Hz.
  assert ((inject_Z <$> rs) !! k = Some (inject_Z r)) as Hq
    by by rewrite list_lookup_fmap, Hk.
  rewrite <- (length_fmap inject_Z rs) in Hlen.
  destruct (merge_left_exact _ _ _ _ Hlen Hq) as [[Hrows Hm]|(row & Hrows & Hm)];
    rewrite list_lookup_fmap, Hm in Hz; simpl in Hz; injection Hz as <-.
  - split; [|done]. intros k' Hk'.
    assert ((r, Z.of_nat k') ∈ filter (λ row : Z * Z,
              Qeq_bool (inject_Z r) (inject_Z row.1) = true)
              (gen_meta_table env fpath_gen)) as Hin.
    { apply list_elem_of_filter. split; [by apply Qeq_bool_inject|].
      apply gen_meta_table_elem. by exists k'. }
    rewrite Hrows in Hin. by apply elem_of_nil in Hin.
  - assert (row ∈ filter (λ row : Z * Z,
              Qeq_bool (inject_Z r) (inject_Z row.1) = true)
              (gen_meta_table env fpath_gen)) as Hrow
      by (rewrite Hrows; left).
    apply list_elem_of_filter in Hrow as [Heq Hrow].
    apply Qeq_bool_inject in Heq. destruct row as [g z0]. simpl in *. subst g.
    apply gen_meta_table_elem in Hrow as (k0 & Hk0 & ->).
    split.
    + intros k' Hk'.
      assert ((r, Z.of_nat k') ∈ filter (λ row : Z * Z,
                Qeq_bool (inject_Z r) (inject_Z row.1) = true)
                (gen_meta_table env fpath_gen)) as Hin.
      { apply list_elem_of_filter. split; [by apply Qeq_bool_inject|].
        apply gen_meta_table_elem. by exists k'. }
      rewrite Hrows in Hin. apply list_elem_of_singleton in Hin.
      by injection Hin as <-.
    + intros Hnin. destruct Hnin. by eapply list_elem_of_lookup_2.
Qed.

Lemma omap_lookup_fmap {A B} (f : A → B) (l : list A) (inds : list nat) :
  omap (λ i, (f <$> l) !! i) inds = f <$> omap (λ i, l !! i) inds.
Proof.
  induction inds as [|i inds IH]; [done|]. csimpl.
  rewrite list_lookup_fmap. destruct (l !! i); csimpl; by rewrite IH.
Qed.

(** The values that the generation pass reads in a window of a stored
    integer resource map that fits the raster. *)
Lemma read_window_fits (f : h5file) name d (rs : list Z) sc rc :
  h5_dsets f !! name = Some d → ds_data d = I32 rs →
  ds_shape d = excl_shape sc →
  length rs = (excl_shape sc).1 * (excl_shape sc).2 →
  ∃ ws, h5_read_window f name rc = Ok (inject_Z <$> ws) ∧
        Forall2 (λ p r, rs !! p = Some r) (window_inds (excl_shape sc) rc) ws.
Proof.
  intros Hd Hdata Hshape Hlen. unfold h5_read_window. rewrite Hd, Hshape.
  unfold ds_values. rewrite Hdata.
  assert (Forall (λ p, is_Some (rs !! p)) (window_inds (excl_shape sc) rc))
    as Hall.
  { apply Forall_forall. intros p Hp. apply lookup_lt_is_Some_2.
    rewrite Hlen. destruct (excl_shape sc). by eapply window_inds_lt. }
  exists (omap (λ p, rs !! p) (window_inds (excl_shape sc) rc)).
  split; [|by apply omap_total].
  f_equal. apply omap_lookup_fmap.
Qed.

(** Every write of a finished batch of the generation pass is the entry
    of the pixel it goes to. *)
Lemma batch_writes_gen_entries env files self res_map_dset chunks i b p z
  f d rs :
  new_extent env (_fpath_excl self) (Some (_resolution self)) = _sc self →
  files !! _fpath_out self = Some f →
  h5_dsets f !! res_map_dset = Some d → ds_data d = I32 rs →
  ds_shape d = excl_shape (_sc self) →
  length rs = (excl_shape (_sc self)).1 * (excl_shape (_sc self)).2 →
  batch_writes_gen env files self res_map_dset ((λ c, (c, tt)) <$> chunks) i
    = Ok b →
  (p, z) ∈ b →
  ∃ r, rs !! p = Some r ∧
       gen_entry_ok (outputs_meta_gid env (_fpath_map self)) r z.
Proof.
  intros Hsc Hf Hd Hdata Hshape Hlen Hb Hpz.
  unfold batch_writes_gen, py_index in Hb. rewrite list_lookup_fmap in Hb.
  destruct (chunks !! i) as [gid_set|]; [|done].
  cbn [fmap option_fmap option_map fst snd] in Hb. rewrite bind_Ok in Hb.
  cbn [fst snd] in Hb.
  destruct (map_gen_gids _ _ _ _ _ _ _ _) as [res|] eqn:Hres;
    [|by rewrite bind_Raise in Hb].
  rewrite bind_Ok in Hb.
  destruct (mapM _ (enumerate gid_set)) as [wss|] eqn:Hwss;
    [|by rewrite bind_Raise in Hb].
  rewrite bind_Ok in Hb. injection Hb as <-.
  assert (gid_set ≠ []) as Hne.
  { intros ->. by unfold map_gen_gids in Hres. }
  rewrite map_gen_gids_eq, Hsc in Hres by done.
  destruct (mapM _ gid_set) as [blocks|] eqn:Hblocks; [|done].
  rewrite bind_Ok in Hres. injection Hres as <-.
  apply list_elem_of_join in Hpz as (wj & Hpz & Hwj).
  apply list_elem_of_lookup in Hwj as [j Hwj].
  apply mapM_result_Ok in Hwss.
  destruct (Forall2_lookup_r _ _ _ _ _ Hwss Hwj) as ([j' gid] & Hjg & Hgw).
  apply enumerate_lookup in Hjg as [Hj' Hgid]. simpl in Hj', Hgid. subst j'.
  apply mapM_result_Ok in Hblocks.
  destruct (Forall2_lookup_l _ _ _ _ _ Hblocks Hgid) as (blk & Hblk & Hgb).
  unfold gid_writes_gen, py_index in Hgw. cbn [fst snd] in Hgw.
  rewrite lookup_app_l in Hgw
    by (rewrite length_fmap; by eapply lookup_lt_Some).
  rewrite list_lookup_fmap, Hblk in Hgw.
  cbn [fmap option_fmap option_map] in Hgw. rewrite bind_Ok in Hgw.
  cbn [entry_values] in Hgw.
  apply list_elem_of_lookup in Hpz as [k Hk].
  assert (get_flat_excl_ind (_sc self) gid !! k = Some p) as Hidx.
  { destruct (setitem_writes_Ok _ _ _ _ Hgw) as (Hkeys & _ & _).
    rewrite <- Hkeys, list_lookup_fmap, Hk. done. }
  destruct (setitem_writes_lookup _ _ _ _ _ _ Hgw Hidx)
    as (Hlt & x & Hx & Hval).
  rewrite Hk in Hx. injection Hx as <-.
  unfold gen_block in Hgb. rewrite Hf, bind_Ok in Hgb.
  destruct (read_window_fits f res_map_dset d rs (_sc self)
              (get_excl_slices (_sc self) gid) Hd Hdata Hshape Hlen)
    as (ws & Hread & Hws).
  rewrite Hread, bind_Ok in Hgb. injection Hgb as <-.
  fold (get_flat_excl_ind (_sc self) gid) in Hws.
  pose proof (Forall2_length _ _ _ Hws) as Hlenws.
  pose proof (length_merge_left (inject_Z <$> ws)
                (gen_meta_table env (_fpath_map self))) as Hle.
  rewrite length_fmap in Hle.
  apply lookup_lt_Some in Hidx as Hklt.
  assert (length (merge_left (inject_Z <$> ws)
                    (gen_meta_table env (_fpath_map self))) = length ws
          ∧ (default (-1)%Z <$> merge_left (inject_Z <$> ws)
               (gen_meta_table env (_fpath_map self))) !! k = Some z)
    as [Hexact Hz].
  { destruct Hval as [[Hz Hl]|Hone].
    - rewrite length_fmap in Hl. split; [lia|done].
    - assert (length (default (-1)%Z <$> merge_left (inject_Z <$> ws)
                (gen_meta_table env (_fpath_map self))) = 1) as Hl
        by by rewrite Hone.
      rewrite length_fmap in Hl. split; [lia|].
      assert (k = 0) as -> by lia. by rewrite Hone. }
  destruct (Forall2_lookup_l _ _ _ _ _ Hws Hidx) as (r & Hr & Hrs).
  exists r. split; [done|]. by eapply merge_left_entry.
Qed.

Lemma gid_writes_gen_all_keys sc n res (jgs : list (nat * nat)) wss :
  mapM (gid_writes_gen sc n res) jgs = Ok wss →
  (mjoin wss).*1 = jgs.*2 ≫= get_flat_excl_ind sc.
Proof.
  rewrite mapM_result_Ok. induction 1 as [|jg w jgs wss Hw _ IH]; [done|].
  unfold gid_writes_gen in Hw.
  destruct (py_index res jg.1) as [ind|]; [|done]. rewrite bind_Ok in Hw.
  apply setitem_writes_Ok in Hw as [Hw _].
  change (mjoin (w :: wss)) with (w ++ mjoin wss).
  by rewrite fmap_cons, bind_cons, fmap_app, IH, Hw.
Qed.

Lemma batch_writes_gen_keys env files self res_map_dset futures i b :
  batch_writes_gen env files self res_map_dset futures i = Ok b →
  ∃ future, futures !! i = Some future ∧
    b.*1 = future.1 ≫= get_flat_excl_ind (_sc self).
Proof.
  unfold batch_writes_gen, py_index.
  destruct (futures !! i) as [future|]; [|done]. rewrite bind_Ok.
  destruct (map_gen_gids _ _ _ _ _ _ _ _) as [res|]; [|done].
  rewrite bind_Ok. destruct (mapM _ _) as [wss|] eqn:Hwss; [|done].
  rewrite bind_Ok. intros [= <-]. exists future. split; [done|].
  apply gid_writes_gen_all_keys in Hwss. by rewrite snd_enumerate in Hwss.
Qed.

Lemma collect_gen_keys env files self res_map_dset chunks completed bs :
  mapM (batch_writes_gen env files self res_map_dset
          ((λ c, (c, tt)) <$> chunks)) completed = Ok bs →
  completed ≡ₚ seq 0 (length chunks) →
  (mjoin bs).*1 ≡ₚ mjoin chunks ≫= get_flat_excl_ind (_sc self).
Proof.
  intros Hbs Hperm.
  set (keys (i : nat) :=
         from_option (λ c, c ≫= get_flat_excl_ind (_sc self)) [] (chunks !! i)).
  assert ((mjoin bs).*1 = completed ≫= keys) as ->.
  { apply mapM_result_Ok in Hbs. clear Hperm.
    induction Hbs as [|i b completed bs Hb _ IH]; [done|].
    apply batch_writes_gen_keys in Hb as (future & Hf & Hb).
    rewrite list_lookup_fmap in Hf.
    assert (keys i = future.1 ≫= get_flat_excl_ind (_sc self)) as Hki.
    { unfold keys. destruct (chunks !! i) as [c|]; [|done].
      simpl in Hf. by injection Hf as <-. }
    change (mjoin (b :: bs)) with (b ++ mjoin bs).
    by rewrite bind_cons, fmap_app, IH, Hb, Hki. }
  rewrite Hperm. unfold keys.
  rewrite (bind_seq_lookup chunks
             (from_option (λ c, c ≫= get_flat_excl_ind (_sc self)) [])).
  simpl. rewrite list_join_bind.
  assert (∀ l : list (list nat),
    l ≫= (λ c, c ≫= get_flat_excl_ind (_sc self))
    = (l ≫= id) ≫= get_flat_excl_ind (_sc self)) as ->; [|done].
  induction l as [|c l IH]; [done|]. by rewrite !bind_cons, bind_app, IH.
Qed.

(** What a finished [run_gen_map] went through. *)
Lemma run_gen_map_Ok env fpath_excl fpath_gen fpath_out gen_map_dset
  res_map_dset bound resolution n_cores completed w w' :
  run_gen_map env fpath_excl fpath_gen fpath_out gen_map_dset res_map_dset
    bound resolution n_cores completed w = (w', Ok tt) →
  let sc := new_extent env fpath_excl resolution in
  let self := mk_mapper bound fpath_excl fpath_gen fpath_out gen_map_dset sc
                (_res sc) (default (cpu_count env) n_cores) in
  ∃ chunks v ind f' evs,
    np_array_split (seq 0 (sc_len sc)) (ceil_half (sc_len sc)) = Ok chunks ∧
    collect_gen env (fs w) self res_map_dset ((λ c, (c, tt)) <$> chunks)
      completed (_init_out_arrays sc).1 = Ok ind ∧
    saved_file self ind None gen_map_dset v (fs w !! h5_path fpath_out)
      = Ok f' ∧
    w' = mk_world (<[h5_path fpath_out:=f']> (fs w)) evs.
Proof.
  intros Hrun sc self.
  destruct (check_fout_world fpath_out fpath_excl gen_map_dset w)
    as (new & r & Hcheck & _ & _ & _).
  unfold run_gen_map in Hrun.
  rewrite (init_bind _ _ _ _ _ _ _ _ _ _ _ _ Hcheck) in Hrun.
  destruct r as [[]|]; [|done]. fold sc in Hrun. fold self in Hrun.
  apply bind_M_Ok in Hrun as (ind & w1 & Hpar & Hrun).
  apply bind_M_Ok in Hrun as (self2 & w2 & Hsave & Hret).
  injection Hret as <-.
  apply parallel_gen_map_Ok in Hpar as (chunks & Hsplit & -> & Hcollect).
  cbn [fs events _sc] in *.
  apply save_tech_map_Ok in Hsave as (v & f' & Hb & Hf' & -> & _).
  cbn [fs events] in *.
  exists chunks, v, ind, f'. eexists. done.
Qed.

(** ** The persisted generation map *)

(** C2. After a finished [run_gen_map] that collected every batch once,
    over an extent whose gids cover the raster and a store whose files fit
    it, with [rs] the values of the stored (integer) resource map: for
    every pixel with resource value [r], the generation index dataset
    holds the row position of [r] in the [gid] column of the generation
    meta when [r] is in that column, and -1 when it is not, which includes
    [r = -1] for a column of site ids. *)
Theorem gen_map_entries env fpath_excl fpath_gen fpath_out gen_map_dset
  res_map_dset bound resolution n_cores completed w w' fres dres rs :
  new_extent env fpath_excl
    (Some (_res (new_extent env fpath_excl resolution)))
    = new_extent env fpath_excl resolution →
  (∀ path f, fs w !! path = Some f →
     file_fits (new_extent env fpath_excl resolution) f) →
  completed
    ≡ₚ seq 0 (ceil_half (sc_len (new_extent env fpath_excl resolution))) →
  (∀ p, p < excl_len (new_extent env fpath_excl resolution) →
     p ∈ seq 0 (sc_len (new_extent env fpath_excl resolution))
         ≫= get_flat_excl_ind (new_extent env fpath_excl resolution)) →
  fs w !! fpath_out = Some fres →
  h5_dsets fres !! res_map_dset = Some dres →
  ds_data dres = I32 rs →
  run_gen_map env fpath_excl fpath_gen fpath_out gen_map_dset res_map_dset
    bound resolution n_cores completed w = (w', Ok tt) →
  ∃ f d,
    fs w' !! h5_path fpath_out = Some f ∧
    h5_dsets f !! gen_map_dset = Some d ∧
    ∀ p r, rs !! p = Some r →
      ∃ z, ds_values d !! p = Some (inject_Z z) ∧
           gen_entry_ok (outputs_meta_gid env fpath_gen) r z ∧
           (r = (-1)%Z →
            Forall (λ g, (0 <= g)%Z) (outputs_meta_gid env fpath_gen) →
            z = (-1)%Z).
Proof.
  intros Hsc Hfits Hperm Hcover Hfres Hdres Hdata Hrun.
  apply run_gen_map_Ok in Hrun
    as (chunks & v & ind & f' & evs & Hsplit & Hcollect & Hsaved & ->).
  set (sc := new_extent env fpath_excl resolution) in *.
  apply saved_file_dset in Hsaved as (Hlen & d & Hd & _ & Hvals & _);
    [|intros f Hf; by eapply Hfits].
  cbn [_sc] in Hlen.
  destruct (Hfits _ _ Hfres _ _ Hdres) as [Hshape Hlenrs].
  unfold ds_values in Hlenrs. rewrite Hdata, length_fmap in Hlenrs.
  set (self := mk_mapper _ _ _ _ _ _ _ _) in Hcollect.
  destruct (length_init_out_arrays sc) as [Ha _].
  rewrite (collect_gen_eq env (fs w) self) in Hcollect by exact Ha.
  destruct (mapM _ completed) as [bs|] eqn:Hbs; [|done].
  rewrite bind_Ok in Hcollect. injection Hcollect as <-.
  rewrite length_apply_writes in Hlen.
  apply np_array_split_Ok in Hsplit as (Hjoin & Hlenc & _).
  rewrite <- Hlenc in Hperm.
  pose proof (collect_gen_keys _ _ _ _ _ _ _ Hbs Hperm) as Hkeys.
  cbn [_sc self] in Hkeys. rewrite Hjoin in Hkeys.
  exists f', d. split; [cbn [fs]; by rewrite lookup_insert_eq|].
  split; [done|]. intros p r Hr.
  assert (p < excl_len sc) as Hp.
  { apply lookup_lt_Some in Hr.
    change (length (_init_out_arrays sc).1
            = (excl_shape sc).1 * (excl_shape sc).2) in Hlen.
    lia. }
  destruct (apply_writes_lookup_last (_init_out_arrays (_sc self)).1
              (mjoin bs) p)
    as (z & Hz & Hlook);
    [rewrite Hkeys; by apply Hcover
    |change (p < length (_init_out_arrays sc).1); by rewrite Ha|].
  apply list_elem_of_join in Hz as (b & Hz & Hb).
  apply list_elem_of_lookup in Hb as [n Hb].
  apply mapM_result_Ok in Hbs.
  destruct (Forall2_lookup_r _ _ _ _ _ Hbs Hb) as (i & _ & Hbi).
  destruct (batch_writes_gen_entries env (fs w) self res_map_dset chunks i b
              p z fres dres rs Hsc Hfres Hdres Hdata Hshape Hlenrs Hbi Hz)
    as (r' & Hr' & Hok).
  rewrite Hr in Hr'. injection Hr' as <-.
  exists z. split.
  { rewrite Hvals, list_lookup_fmap. exact (f_equal (fmap inject_Z) Hlook). }
  split; [done|]. intros -> Hpos. apply Hok. intros Hin.
  eapply Forall_forall in Hpos; [|exact Hin]. lia.
Qed.

Lemma gen_map_entries_witness :
  ∃ f d,
    fs (run_gen_map Ex.env "excl.tif" "gen.h5" "out.h5" "gen_map" "res_map"
          default_distance_upper_bound default_resolution default_n_cores
          [0; 1] Ex.world_mapped).1 !! h5_path "out.h5" = Some f ∧
    h5_dsets f !! "gen_map"%string = Some d ∧
    ∀ p r, [0; -1; -1; 1]%Z !! p = Some r →
      ∃ z, ds_values d !! p = Some (inject_Z z) ∧
           gen_entry_ok (outputs_meta_gid Ex.env "gen.h5") r z ∧
           (r = (-1)%Z →
            Forall (λ g, (0 <= g)%Z) (outputs_meta_gid Ex.env "gen.h5") →
            z = (-1)%Z).
Proof.
  apply (gen_map_entries Ex.env "excl.tif" "gen.h5" "out.h5" "gen_map"
           "res_map" default_distance_upper_bound default_resolution
           default_n_cores [0; 1] Ex.world_mapped
           (run_gen_map Ex.env "excl.tif" "gen.h5" "out.h5" "gen_map" "res_map"
              default_distance_upper_bound default_resolution default_n_cores
              [0; 1] Ex.world_mapped).1
           Ex.file_mapped
           (mk_dataset (2, 2) (I32 [0; -1; -1; 1]%Z)
              (<["distance_upper_bound"%string:=ANum 0.03%Q]>
                 {["fpath"%string:=AStr "res.h5"]}))).
  - reflexivity.
  - intros path f Hf. cbn [fs Ex.world_mapped] in Hf.
    apply lookup_singleton_Some in Hf as [_ <-].
    apply (bool_decide_unpack _). vm_compute. exact I.
  - reflexivity.
  - intros p Hp. change (p < 4) in Hp.
    do 4 (destruct p as [|p];
          [apply (bool_decide_unpack _); vm_compute; exact I|]).
    lia.
  - vm_compute. reflexivity.
  - vm_compute. reflexivity.
  - reflexivity.
  - vm_compute. reflexivity.
Defined.

(** ** The content of a saved file *)

Lemma check_fout_result fpath_out fpath_excl dset w w' r :
  _check_fout fpath_out fpath_excl dset w = (w', r) →
  r = Ok tt ↔ check_passes (fs w !! fpath_out).
Proof.
  destruct w as [files evs].
  unfold _check_fout, check_passes, mbind, M_bind, get_fs, lift, emit, raise,
    mret, M_ret; simpl.
  destruct (files !! fpath_out) as [f|] eqn:Hf; simpl.
  2:{ by intros [= <- <-]. }
  destruct (h5_attrs f !! "fpath_excl"%string) as [[s|q]|] eqn:Ha; simpl.
  - destruct (h5_dsets f !! "latitude"%string) as [dlat|],
      (h5_dsets f !! "longitude"%string) as [dlon|],
      (String.eqb (basename s) (basename fpath_excl)),
      (bool_decide (is_Some (h5_dsets f !! dset)));
      simpl; intros [= <- <-];
      (split; [intros ?; simplify_eq; repeat split; eauto
              |intros (_ & [? ?] & [? ?]); simplify_eq; done]).
  - intros [= <- <-]. split; [done|]. by intros [[? ?] _].
  - intros [= <- <-]. split; [done|]. by intros [[? ?] _].
Qed.

Lemma written_file_keeps self ind dset v f f' :
  written_file self ind dset v f = Ok f' →
  h5_attrs f' = h5_attrs f ∧
  ∀ name, name ≠ dset → h5_dsets f' !! name = h5_dsets f !! name.
Proof.
  unfold written_file.
  destruct (np_reshape ind _) as [data|]; [|done]. rewrite bind_Ok.
  destruct (h5_dsets f !! dset) as [d0|];
    [destruct (h5_broadcast _ (ds_shape d0) data) as [vals|];
       [|by rewrite bind_Raise]|].
  all: rewrite !bind_Ok; intros [= <-]; split; [done|].
  all: intros name Hne; simpl; by rewrite lookup_insert_ne.
Qed.

Lemma cast_into_idem stored vals :
  cast_into (cast_into stored vals) vals = cast_into stored vals.
Proof. by destruct stored. Qed.

Lemma insert_pair_idem {A} (m : gmap string A) i j x y :
  <[j:=y]> (<[i:=x]> (<[j:=y]> (<[i:=x]> m))) = <[j:=y]> (<[i:=x]> m).
Proof.
  apply map_eq. intros k.
  destruct (decide (j = k)) as [->|Hj]; [by rewrite !lookup_insert_eq|].
  destruct (decide (i = k)) as [->|Hi];
    repeat (rewrite lookup_insert_eq || rewrite lookup_insert_ne by done);
    done.
Qed.

(** Writing the same index array a second time changes nothing: every
    value of the dataset is written over. *)
Lemma written_file_idem self ind dset v f f' :
  written_file self ind dset v f = Ok f' →
  written_file self ind dset v f' = Ok f'.
Proof.
  unfold written_file, np_reshape.
  destruct (Nat.eqb_spec (length ind)
              ((excl_shape (_sc self)).1 * (excl_shape (_sc self)).2))
    as [Hlen|]; [|done].
  rewrite !bind_Ok.
  destruct (h5_dsets f !! dset) as [d0|] eqn:Hd0.
  - destruct (h5_broadcast _ (ds_shape d0) ind) as [vals|] eqn:Hvals;
      [|by rewrite bind_Raise].
    rewrite !bind_Ok. intros [= <-].
    cbn [h5_dsets set_dset]. rewrite lookup_insert_eq.
    cbn [ds_shape ds_data ds_attrs set_ds_attr]. rewrite Hvals, !bind_Ok.
    unfold set_dset, set_ds_attr.
    cbn [h5_dsets h5_attrs ds_shape ds_data ds_attrs].
    by rewrite insert_insert_eq, cast_into_idem, insert_pair_idem.
  - rewrite !bind_Ok. intros [= <-].
    cbn [h5_dsets set_dset]. rewrite lookup_insert_eq.
    cbn [ds_shape ds_data ds_attrs set_ds_attr].
    rewrite h5_broadcast_same, !bind_Ok by done.
    unfold set_dset, set_ds_attr.
    cbn [h5_dsets h5_attrs ds_shape ds_data ds_attrs cast_into].
    by rewrite insert_insert_eq, insert_pair_idem.
Qed.

(** The file that [save_tech_map] writes the index dataset into. *)
Lemma saved_file_start self ind coords dset v old f' :
  saved_file self ind (Some coords) dset v old = Ok f' →
  ∃ f, written_file self ind dset v f = Ok f' ∧
       match old with
       | Some f0 => f = f0
       | None =>
           length coords
             = (excl_shape (_sc self)).1 * (excl_shape (_sc self)).2 ∧
           f = mk_h5file {["fpath_excl"%string:=AStr (_fpath_excl self)]}
                 (<["longitude"%string:=
                      mk_dataset (excl_shape (_sc self)) (F32 (snd <$> coords)) ∅]>
                    (<["latitude"%string:=
                         mk_dataset (excl_shape (_sc self))
                           (F32 (fst <$> coords)) ∅]> ∅))
       end.
Proof.
  unfold saved_file. destruct old as [f0|].
  - rewrite bind_Ok. intros H. by exists f0.
  - unfold np_reshape at 1 2.
    destruct (length (fst <$> coords) =? _) eqn:Hlat; [|done].
    rewrite bind_Ok.
    destruct (length (snd <$> coords) =? _) eqn:Hlon; [|done].
    apply Nat.eqb_eq in Hlat. rewrite length_fmap in Hlat.
    rewrite !bind_Ok. intros H. eexists. split; [exact H|done].
Qed.

Lemma written_file_has self ind dset v f f' :
  written_file self ind dset v f = Ok f' → is_Some (h5_dsets f' !! dset).
Proof.
  unfold written_file.
  destruct (np_reshape ind _) as [data|]; [|done]. rewrite bind_Ok.
  destruct (h5_dsets f !! dset) as [d0|];
    [destruct (h5_broadcast _ (ds_shape d0) data) as [vals|];
       [|by rewrite bind_Raise]|].
  all: rewrite !bind_Ok; intros [= <-]; simpl; rewrite lookup_insert_eq.
  all: by eexists.
Qed.

(** [save_tech_map] on a file that is there. *)
Lemma save_tech_map_existing self ind coords fpath_out dset w f0 v f' :
  fs w !! h5_path fpath_out = Some f0 →
  _distance_upper_bound self = Some v →
  written_file self ind dset v f0 = Ok f' →
  save_tech_map self ind coords fpath_out dset w
  = (mk_world (<[h5_path fpath_out:=f']> (fs w)) (events w), Ok self).
Proof.
  destruct w as [files evs]. cbn [fs events]. intros Hf0 Hb Hw.
  unfold save_tech_map.
  unfold mbind at 1 2, M_bind at 1 2, get_fs at 1. cbn [fs events].
  unfold path_exists. rewrite Hf0.
  rewrite bool_decide_eq_true_2 by by eexists. cbn [negb].
  unfold mret at 1, M_ret at 1.
  unfold mbind at 1 2 3 4 5 6 7, M_bind at 1 2 3 4 5 6 7,
    get_fs, put_file, lift. cbn [fs events].
  rewrite Hf0. cbn [default from_option id].
  unfold written_file in Hw.
  destruct (np_reshape ind _) as [data|]; [|done]. rewrite bind_Ok in Hw.
  destruct (h5_dsets f0 !! dset) as [d0|];
    [destruct (h5_broadcast (excl_shape (_sc self)) (ds_shape d0) data)
       as [vals|]; [|by rewrite bind_Raise in Hw]|].
  all: rewrite ?bind_Ok in Hw; injection Hw as <-.
  all: rewrite ?bind_Ok, distance_upper_bound_eq, Hb.
  all: unfold mbind, M_bind, mret, M_ret; cbn [fs events].
  all: by rewrite !insert_insert_eq.
Qed.

(** ** The distance bound *)

(** C9, on the code. An access to the property of an object without a
    stored bound raises [TypeError]: the property opens the resource file
    with [Resource(self._fpath_map, str_decode=False)], and the
    constructor of [Resource] takes no keyword [str_decode]. The
    exception comes before the file is opened and before a latitude is
    read, whatever the resource file holds: no bound is computed from the
    gaps of the latitudes, none is stored, and the world stays as it
    was. *)
Theorem distance_upper_bound_unset_raises self w :
  _distance_upper_bound self = None →
  distance_upper_bound self w = (w, Raise TypeError).
Proof.
  intros Hnone. unfold distance_upper_bound. rewrite Hnone.
  unfold mbind at 1, M_bind at 1, get_fs at 1.
  unfold mbind at 1, M_bind at 1, lift at 1.
  by rewrite Resource_str_decode.
Qed.

Lemma distance_upper_bound_unset_raises_witness :
  distance_upper_bound (Ex.mapper None) Ex.empty_world
  = (Ex.empty_world, Raise TypeError).
Proof.
  apply (distance_upper_bound_unset_raises (Ex.mapper None) Ex.empty_world).
  reflexivity.
Defined.



(** ** The worker of the resource pass *)

(** The worker gets as far as the coordinates of its gids; the call that
    opens the resource file then raises. *)
Lemma map_resource_gids_eq env files gids fpath_excl fpath_res fpath_out bound
  resolution margin :
  map_resource_gids env files gids fpath_excl fpath_res fpath_out bound
    resolution margin
  = match gids with
    | [] => Raise IndexError
    | _ :: _ =>
        match _unpack_coords files gids
                (new_extent env fpath_excl (Some resolution)) fpath_out with
        | Ok _ => Raise TypeError
        | Raise e => Raise e
        end
    end.
Proof.
  unfold map_resource_gids. destruct gids as [|g gids]; [done|].
  rewrite bind_Ok.
  destruct (_unpack_coords _ _ _ _) as [[[cs lr] lnr]|e]; [|done].
  by rewrite bind_Ok.
Qed.

(** C6, on the code. A batch whose pixel coordinates have been unpacked
    raises [TypeError] at [Resource(fpath_res, str_decode=False)]: the
    resource sites are not read and the mask of the candidate sites is
    not built. The branch that appends -1 for a batch without candidate
    sites is reached by no batch, whatever sites the resource file
    holds. *)
Theorem map_resource_gids_type_error env files gids fpath_excl fpath_res
  fpath_out bound resolution margin unpacked :
  gids ≠ [] →
  _unpack_coords files gids (new_extent env fpath_excl (Some resolution))
    fpath_out = Ok unpacked →
  map_resource_gids env files gids fpath_excl fpath_res fpath_out bound
    resolution margin = Raise TypeError.
Proof.
  intros Hne Hunpack. rewrite map_resource_gids_eq, Hunpack.
  by destruct gids.
Qed.

Lemma map_resource_gids_type_error_witness :
  map_resource_gids Ex.env (fs Ex.empty_world) [0; 1] "excl.tif" "res.h5"
    "out.h5" 0.03%Q 1 0.1%Q = Raise TypeError.
Proof.
  apply (map_resource_gids_type_error Ex.env (fs Ex.empty_world) [0; 1]
           "excl.tif" "res.h5" "out.h5" 0.03%Q 1 0.1%Q
           ([[(0, 0)]; [(0, 1)]]%Q, Some (0, 0)%Q, Some (0, 1)%Q)).
  - discriminate.
  - vm_compute. reflexivity.
Defined.

(** ** The resource pass *)

(** The first batch that finishes ends the collection. *)
Lemma collect_resource_raises env files self futures completed out :
  completed ≠ [] →
  ∃ e, collect_resource env files self futures completed out = Raise e.
Proof.
  destruct completed as [|i rest]; [done|]. intros _.
  unfold collect_resource. cbn [foldM].
  destruct (py_index futures i) as [future|e]; [|by exists e].
  rewrite bind_Ok, map_resource_gids_eq.
  destruct (future.1) as [|g gids]; [by eexists|].
  destruct (_unpack_coords _ _ _ _); by eexists.
Qed.

(** Every gid window of a batch gives coordinates: the batch is
    unpacked. *)
Lemma unpack_loop_is_Ok files sc fpath_out gids acc :
  (∀ gid, gid ∈ gids →
     ∃ block,
       window_coords files sc fpath_out (get_excl_slices sc gid) = Ok block
       ∧ block ≠ []) →
  is_Ok
    (foldM (λ '(coords_out, lat_range, lon_range) gid,
       emeta ← window_coords files sc fpath_out (get_excl_slices sc gid);
       lat_lo ← np_min (fst <$> emeta);
       lat_hi ← np_max (fst <$> emeta);
       lon_lo ← np_min (snd <$> emeta);
       lon_hi ← np_max (snd <$> emeta);
       Ok (coords_out ++ [emeta], widen lat_range lat_lo lat_hi,
           widen lon_range lon_lo lon_hi))
       gids acc).
Proof.
  revert acc. induction gids as [|gid gids IH]; intros [[cs lr] lnr] Hwin;
    cbn [foldM].
  - by eexists.
  - destruct (Hwin gid) as (block & -> & Hne); [apply list_elem_of_here|].
    rewrite bind_Ok. destruct block as [|c block]; [done|].
    cbn [fmap list_fmap np_min np_max]. rewrite !bind_Ok.
    apply IH. intros gid' Hgid'. apply Hwin. by apply list_elem_of_further.
Qed.

Lemma unpack_coords_is_Ok files gids sc fpath_out :
  (∀ gid, gid ∈ gids →
     ∃ block,
       window_coords files sc fpath_out (get_excl_slices sc gid) = Ok block
       ∧ block ≠ []) →
  is_Ok (_unpack_coords files gids sc fpath_out).
Proof. apply unpack_loop_is_Ok. Qed.

Lemma collect_resource_type_error env files self chunks (v : Q) i rest out c :
  chunks !! i = Some c → c ≠ [] →
  is_Ok (_unpack_coords files c
           (new_extent env (_fpath_excl self) (Some (_resolution self)))
           (_fpath_out self)) →
  collect_resource env files self ((λ c, (c, v)) <$> chunks) (i :: rest) out
  = Raise TypeError.
Proof.
  intros Hc Hne [unpacked Hunpack]. unfold collect_resource. cbn [foldM].
  unfold py_index. rewrite list_lookup_fmap, Hc. cbn [fmap option_fmap option_map].
  rewrite bind_Ok. cbn [fst snd]. rewrite map_resource_gids_eq, Hunpack.
  by destruct c.
Qed.

(** The parallel map of the resource pass does not return: it raises
    before the first batch is submitted, or when the first batch
    finishes. No file is written. *)
Lemma parallel_resource_map_fails env self completed w :
  completed ≡ₚ seq 0 (ceil_half (sc_len (_sc self))) →
  ∃ new e,
    _parallel_resource_map env self completed w
    = (mk_world (fs w) (events w ++ new), Raise e)
    ∧ (new = [] ∨ new = Submit <$> seq 0 (ceil_half (sc_len (_sc self)))).
Proof.
  intros Hperm. rewrite parallel_resource_map_eq, length_seq.
  assert (∀ e : exn, (w, Raise e : result (TechMapping * (list Z * list coord)))
            = (mk_world (fs w) (events w ++ []), Raise e)) as Hw
    by (intros e; rewrite app_nil_r; by destruct w).
  destruct (np_array_split _ _) as [chunks|e] eqn:Hsplit;
    [|exists [], e; split; [apply Hw|by left]].
  apply np_array_split_Ok in Hsplit as (_ & Hlen & Hne).
  destruct (_n_cores self =? 0);
    [exists [], ValueError; split; [apply Hw|by left]|].
  rewrite submit_all_bound by done.
  destruct (_distance_upper_bound self) as [v|];
    [|exists [], TypeError; split; [apply Hw|by left]].
  cbn [fs events].
  destruct (collect_resource_raises env (fs w) self ((λ c, (c, v)) <$> chunks)
              completed (_init_out_arrays (_sc self))) as [e ->].
  { intros ->. apply Permutation_nil_l in Hperm.
    rewrite <- Hlen in Hperm. by destruct chunks. }
  exists (Submit <$> seq 0 (length chunks)), e. split; [done|].
  right. by rewrite Hlen.
Qed.



(** C1, on the code. No run of [run_resource_map] persists an index
    map: for every extent, bound, number of workers and order of
    completion the run ends in an exception and the files are as they
    were before. The exception is the one of the check of the output
    file, [ValueError] for an extent without gids or a pool without
    workers, and otherwise the [TypeError] of the calls that open the
    resource file, unless unpacking the coordinates of the batch that
    finishes first has raised before. *)
Theorem run_resource_map_raises env fpath_excl fpath_res fpath_out dset bound
  resolution n_cores completed w :
  completed
    ≡ₚ seq 0 (ceil_half (sc_len (new_extent env fpath_excl resolution))) →
  ∃ new e,
    run_resource_map env fpath_excl fpath_res fpath_out dset bound resolution
      n_cores completed w
    = (mk_world (fs w) (events w ++ new), Raise e).
Proof.
  intros Hperm.
  destruct (check_fout_world fpath_out fpath_excl dset w)
    as (new & r & Hcheck & _).
  unfold run_resource_map.
  rewrite (init_bind _ _ _ _ _ _ _ _ _ _ _ _ Hcheck).
  destruct r as [[]|e]; [|by exists new, e].
  unfold mbind at 1, M_bind at 1.
  set (self := mk_mapper _ _ _ _ _ _ _ _).
  destruct (parallel_resource_map_fails env self completed
              (mk_world (fs w) (events w ++ new)) Hperm)
    as (new' & e & -> & _).
  cbn [fs events]. exists (new ++ new'), e. by rewrite app_assoc.
Qed.

Lemma run_resource_map_raises_witness :
  ∃ new e,
    run_resource_map Ex.env "excl.tif" "res.h5" "out.h5" "res_map"
      default_distance_upper_bound default_resolution default_n_cores [0; 1]
      Ex.empty_world
    = (mk_world (fs Ex.empty_world) (events Ex.empty_world ++ new), Raise e).
Proof.
  apply (run_resource_map_raises Ex.env "excl.tif" "res.h5" "out.h5" "res_map"
           default_distance_upper_bound default_resolution default_n_cores
           [0; 1] Ex.empty_world).
  reflexivity.
Defined.

(** C3, on the code. A run with a bound, a pool with workers and an
    extent with gids, against an output file that passes the check and
    from which the coordinates of every gid can be read, as a populated
    output file is, submits every batch and then raises [TypeError] at
    the result of the batch that finishes first: the files stay as they
    were, the stored index dataset is not replaced. *)
Theorem run_resource_map_populated_raises env fpath_excl fpath_res fpath_out
  dset q resolution n_cores completed w :
  check_passes (fs w !! fpath_out) →
  default (cpu_count env) n_cores ≠ 0 →
  sc_len (new_extent env fpath_excl resolution) ≠ 0 →
  completed
    ≡ₚ seq 0 (ceil_half (sc_len (new_extent env fpath_excl resolution))) →
  (∀ gid, gid < sc_len (new_extent env fpath_excl resolution) →
     ∃ block,
       window_coords (fs w)
         (new_extent env fpath_excl
            (Some (_res (new_extent env fpath_excl resolution))))
         fpath_out
         (get_excl_slices
            (new_extent env fpath_excl
               (Some (_res (new_extent env fpath_excl resolution))))
            gid)
       = Ok block
       ∧ block ≠ []) →
  ∃ new,
    quiet new ∧
    run_resource_map env fpath_excl fpath_res fpath_out dset (Some q)
      resolution n_cores completed w
    = (mk_world (fs w)
         (events w ++ new
          ++ (Submit
                <$> seq 0
                      (ceil_half
                         (sc_len (new_extent env fpath_excl resolution))))),
       Raise TypeError).
Proof.
  intros Hpass Hcores Hgids Hperm Hwin.
  destruct (check_fout_world fpath_out fpath_excl dset w)
    as (new & r & Hcheck & Hquiet & _).
  apply (check_fout_result _ _ _ _ _ _ Hcheck) in Hpass. subst r.
  exists new. split; [done|].
  unfold run_resource_map.
  rewrite (init_bind _ _ _ _ _ _ _ _ _ _ _ _ Hcheck).
  unfold mbind at 1, M_bind at 1.
  rewrite parallel_resource_map_eq, length_seq. cbn [_sc _n_cores].
  set (sc := new_extent env fpath_excl resolution) in *.
  destruct (np_array_split _ _) as [chunks|e] eqn:Hsplit.
  2:{ unfold np_array_split in Hsplit.
      destruct (Nat.eqb_spec (ceil_half (sc_len sc)) 0) as [H0|]; [|done].
      by apply ceil_half_pos in H0. }
  pose proof (gid_chunks_lengths _ _ Hsplit) as Hsizes.
  apply np_array_split_Ok in Hsplit as (Hjoin & Hlen & Hne).
  destruct (Nat.eqb_spec (default (cpu_count env) n_cores) 0); [done|].
  rewrite submit_all_bound by done. cbn [_distance_upper_bound fs events].
  destruct completed as [|i rest].
  { apply Permutation_nil_l in Hperm. rewrite <- Hlen in Hperm.
    by destruct chunks. }
  assert (i < length chunks) as Hi.
  { rewrite Hlen. apply elem_of_seq with (j := 0).
    rewrite <- Hperm. apply list_elem_of_here. }
  apply lookup_lt_is_Some in Hi as [c Hc].
  rewrite (collect_resource_type_error env (fs w) _ chunks q i rest _ c Hc).
  - by rewrite Hlen, <- app_assoc.
  - eapply Forall_lookup in Hsizes; [|exact Hc]. intros ->.
    simpl in Hsizes. lia.
  - apply unpack_coords_is_Ok. intros gid Hgid. apply Hwin.
    assert (gid ∈ seq 0 (sc_len sc)) as Hin.
    { rewrite <- Hjoin. apply list_elem_of_join. exists c. split; [done|].
      by eapply list_elem_of_lookup_2. }
    apply elem_of_seq in Hin. lia.
Qed.

Lemma run_resource_map_populated_raises_witness :
  ∃ new,
    quiet new ∧
    run_resource_map Ex.env "excl.tif" "res.h5" "out.h5" "res_map"
      (Some 0.03%Q) default_resolution default_n_cores [1; 0] Ex.world_mapped
    = (mk_world (fs Ex.world_mapped)
         (events Ex.world_mapped ++ new
          ++ (Submit
                <$> seq 0
                      (ceil_half
                         (sc_len
                            (new_extent Ex.env "excl.tif"
                               default_resolution))))),
       Raise TypeError).
Proof.
  apply (run_resource_map_populated_raises Ex.env "excl.tif" "res.h5" "out.h5"
           "res_map" 0.03%Q default_resolution default_n_cores [1; 0]
           Ex.world_mapped).
  - vm_compute. split; [by eexists|]. split; by eexists.
  - vm_compute. lia.
  - vm_compute. lia.
  - apply (Permutation_swap 0 1 []).
  - intros gid Hgid. change (gid < 4) in Hgid.
    do 4 (destruct gid as [|gid];
          [eexists; split; [vm_compute; reflexivity|discriminate]|]).
    lia.
Defined.

(** * Further properties of the module *)

(** ** The check of a pre-existing output file *)



(** A pre-existing output file that passes the check draws at most one
    warning, the last one that the code assigns: that the dataset is
    being replaced when the file holds a dataset of the name, whatever
    exclusion path the file records; otherwise that the exclusion layers
    differ, exactly when the recorded path and the given one have
    different base names. *)
Theorem check_fout_one_warning fpath_out fpath_excl dset w f s :
  fs w !! fpath_out = Some f →
  h5_attrs f !! "fpath_excl"%string = Some (AStr s) →
  is_Some (h5_dsets f !! "latitude"%string) →
  is_Some (h5_dsets f !! "longitude"%string) →
  _check_fout fpath_out fpath_excl dset w
  = (mk_world (fs w)
       (events w ++
        match h5_dsets f !! dset with
        | Some _ => [Warn DatasetReplaced]
        | None =>
            if String.eqb (basename s) (basename fpath_excl) then []
            else [Warn ExclMismatch]
        end),
     Ok tt).
Proof.
  destruct w as [files evs]. cbn [fs events]. intros Hf Ha Hlat Hlon.
  unfold _check_fout, mbind, M_bind, get_fs, lift, emit, raise, mret, M_ret;
    simpl.
  rewrite Hf. simpl. rewrite Ha. simpl.
  rewrite (bool_decide_eq_true_2 _ Hlat), (bool_decide_eq_true_2 _ Hlon). simpl.
  destruct (h5_dsets f !! dset) as [d|] eqn:Hd.
  - by rewrite bool_decide_eq_true_2 by by eexists.
  - rewrite bool_decide_eq_false_2 by by intros [? ?].
    destruct (String.eqb _ _); simpl; [by rewrite app_nil_r|done].
Qed.

Lemma check_fout_one_warning_witness :
  _check_fout "out.h5" "excl.tif" "res_map" ExMore.world_other_excl
  = (mk_world (fs ExMore.world_other_excl)
       (events ExMore.world_other_excl ++
        match h5_dsets ExMore.file_other_excl !! "res_map"%string with
        | Some _ => [Warn DatasetReplaced]
        | None =>
            if String.eqb (basename "/data/other.tif") (basename "excl.tif")
            then []
            else [Warn ExclMismatch]
        end),
     Ok tt).
Proof.
  apply (check_fout_one_warning "out.h5" "excl.tif" "res_map"
           ExMore.world_other_excl ExMore.file_other_excl "/data/other.tif").
  - reflexivity.
  - reflexivity.
  - vm_compute. by eexists.
  - vm_compute. by eexists.
Defined.

(** ** The bounding box of a batch *)

Lemma foldl_Qmax_ge_init (l : list Q) x : (x <= foldl Qmax x l)%Q.
Proof.
  revert x. induction l as [|z l IH]; intros x; simpl; [apply Qle_refl|].
  eapply Qle_trans; [apply Q.le_max_l|apply IH].
Qed.

Lemma foldl_Qmax_ge (l : list Q) x y : y ∈ x :: l → (y <= foldl Qmax x l)%Q.
Proof.
  revert x. induction l as [|z l IH]; intros x Hy; simpl.
  - apply list_elem_of_singleton in Hy as ->. apply Qle_refl.
  - apply elem_of_cons in Hy as [->|Hy].
    + eapply Qle_trans; [apply Q.le_max_l|apply foldl_Qmax_ge_init].
    + apply elem_of_cons in Hy as [->|Hy].
      * eapply Qle_trans; [apply Q.le_max_r|apply foldl_Qmax_ge_init].
      * apply IH. by right.
Qed.

Lemma np_max_Ok l m : np_max l = Ok m → ∀ x, x ∈ l → (x <= m)%Q.
Proof.
  destruct l as [|x l]; simpl; [done|]. intros [= <-]. apply foldl_Qmax_ge.
Qed.

Lemma in_ranges_widen lr lnr lo hi lo' hi' c :
  in_ranges lr lnr c → in_ranges (widen lr lo hi) (widen lnr lo' hi') c.
Proof.
  intros (a & b & -> & -> & H1 & H2 & H3 & H4). simpl.
  eexists _, _. split; [done|]. split; [done|]. simpl.
  split; [eapply Qle_trans; [apply Q.le_min_l|done]|].
  split; [eapply Qle_trans; [done|apply Q.le_max_l]|].
  split; [eapply Qle_trans; [apply Q.le_min_l|done]|].
  eapply Qle_trans; [done|apply Q.le_max_l].
Qed.

Lemma in_ranges_new lr lnr lo hi lo' hi' c :
  (lo <= c.1)%Q → (c.1 <= hi)%Q → (lo' <= c.2)%Q → (c.2 <= hi')%Q →
  in_ranges (widen lr lo hi) (widen lnr lo' hi') c.
Proof.
  intros H1 H2 H3 H4. unfold in_ranges, widen.
  destruct lr as [a|], lnr as [b|]; eexists _, _;
    (split; [done|]); (split; [done|]); simpl;
    repeat split; try done;
    try (eapply Qle_trans; [apply Q.le_min_r|done]);
    try (eapply Qle_trans; [done|apply Q.le_max_r]).
Qed.

(** The loop of [_unpack_coords] keeps every coordinate that it has
    unpacked within the running ranges, and unpacks no empty block. *)
Lemma unpack_coords_loop files sc fpath_out gids cs0 lr0 lnr0 cs lr lnr :
  foldM (λ '(coords_out, lat_range, lon_range) gid,
    emeta ← window_coords files sc fpath_out (get_excl_slices sc gid);
    lat_lo ← np_min (fst <$> emeta);
    lat_hi ← np_max (fst <$> emeta);
    lon_lo ← np_min (snd <$> emeta);
    lon_hi ← np_max (snd <$> emeta);
    Ok (coords_out ++ [emeta], widen lat_range lat_lo lat_hi,
        widen lon_range lon_lo lon_hi))
    gids (cs0, lr0, lnr0) = Ok (cs, lr, lnr) →
  (∀ block c, block ∈ cs0 → c ∈ block → in_ranges lr0 lnr0 c) →
  Forall (λ block, block ≠ []) cs0 →
  (∀ block c, block ∈ cs → c ∈ block → in_ranges lr lnr c)
  ∧ Forall (λ block : list coord, block ≠ []) cs.
Proof.
  revert cs0 lr0 lnr0.
  induction gids as [|gid gids IH]; intros cs0 lr0 lnr0; simpl.
  - by intros [= <- <- <-].
  - destruct (window_coords _ _ _ _) as [emeta|] eqn:Hw; [|done].
    rewrite bind_Ok.
    destruct (np_min (fst <$> emeta)) as [lat_lo|] eqn:Hlatlo; [|done].
    rewrite bind_Ok.
    destruct (np_max (fst <$> emeta)) as [lat_hi|] eqn:Hlathi; [|done].
    rewrite bind_Ok.
    destruct (np_min (snd <$> emeta)) as [lon_lo|] eqn:Hlonlo; [|done].
    rewrite bind_Ok.
    destruct (np_max (snd <$> emeta)) as [lon_hi|] eqn:Hlonhi; [|done].
    rewrite !bind_Ok. intros H Hin Hne.
    apply IH in H; [done|..].
    + intros block c Hblock Hc.
      apply elem_of_app in Hblock as [Hblock|Hblock].
      * apply in_ranges_widen. by eapply Hin.
      * apply list_elem_of_singleton in Hblock as ->.
        apply np_min_Ok in Hlatlo as [_ Hlatlo], Hlonlo as [_ Hlonlo].
        pose proof (np_max_Ok _ _ Hlathi) as Hlathi'.
        pose proof (np_max_Ok _ _ Hlonhi) as Hlonhi'.
        apply in_ranges_new.
        -- apply Hlatlo. by apply list_elem_of_fmap_2.
        -- apply Hlathi'. by apply list_elem_of_fmap_2.
        -- apply Hlonlo. by apply list_elem_of_fmap_2.
        -- apply Hlonhi'. by apply list_elem_of_fmap_2.
    + apply Forall_app. split; [done|]. apply Forall_singleton.
      intros ->. done.
Qed.

(** What [_unpack_coords] returns for a batch: one block of coordinates
    per gid, none of them empty, and ranges that hold the latitude and
    the longitude of every unpacked pixel. *)
Theorem unpack_coords_bounding_box files gids sc fpath_out cs lat_range
  lon_range :
  _unpack_coords files gids sc fpath_out
    = Ok (cs, Some lat_range, Some lon_range) →
  length cs = length gids ∧
  Forall (λ block : list coord, block ≠ []) cs ∧
  ∀ block c, block ∈ cs → c ∈ block →
    (lat_range.1 <= c.1)%Q ∧ (c.1 <= lat_range.2)%Q ∧
    (lon_range.1 <= c.2)%Q ∧ (c.2 <= lon_range.2)%Q.
Proof.
  intros Hun. split.
  { apply unpack_coords_Ok, Forall2_length in Hun. done. }
  unfold _unpack_coords in Hun.
  apply unpack_coords_loop in Hun as [Hin Hne].
  - split; [done|]. intros block c Hblock Hc.
    destruct (Hin block c Hblock Hc) as (a & b & [= <-] & [= <-] & ?). done.
  - intros block c Hblock. by apply elem_of_nil in Hblock.
  - constructor.
Qed.

Lemma unpack_coords_bounding_box_witness :
  length [[(0, 0)]; [(0, 1)]]%Q = length [0; 1] ∧
  Forall (λ block : list coord, block ≠ []) [[(0, 0)]; [(0, 1)]]%Q ∧
  ∀ block c, block ∈ [[(0, 0)]; [(0, 1)]]%Q → c ∈ block →
    ((0, 0).1 <= c.1)%Q ∧ (c.1 <= (0, 0).2)%Q ∧
    ((0, 1).1 <= c.2)%Q ∧ (c.2 <= (0, 1).2)%Q.
Proof.
  apply (unpack_coords_bounding_box (fs Ex.empty_world) [0; 1] Ex.sc "out.h5").
  vm_compute. reflexivity.
Defined.

(** ** The batches of a pass *)

(** The batches that both passes submit: [np.array_split] cuts the gids
    0 .. n-1, in order, into ceil(n / 2) batches, each of one or two
    gids. *)
Theorem gid_chunks_pairs n chunks :
  np_array_split (seq 0 n) (ceil_half n) = Ok chunks →
  mjoin chunks = seq 0 n ∧ length chunks = ceil_half n ∧
  Forall (λ c : list nat, length c = 1 ∨ length c = 2) chunks.
Proof.
  intros Hsplit.
  destruct (np_array_split_Ok _ _ _ Hsplit) as (Hjoin & Hlen & _).
  split; [done|]. split; [done|]. by apply (gid_chunks_lengths n).
Qed.

Lemma gid_chunks_pairs_witness :
  mjoin [[0; 1]; [2; 3]; [4]] = seq 0 5 ∧
  length [[0; 1]; [2; 3]; [4]] = ceil_half 5 ∧
  Forall (λ c : list nat, length c = 1 ∨ length c = 2) [[0; 1]; [2; 3]; [4]].
Proof.
  apply (gid_chunks_pairs 5 [[0; 1]; [2; 3]; [4]]). reflexivity.
Defined.

(** ** Runs that cannot start *)

(** An extent without gids, or a pool without workers: once the output
    file has passed the check, [run_resource_map] raises [ValueError],
    from [np.array_split] with zero sections or from the executor,
    before any batch is submitted and before any file is written. *)
Theorem run_resource_map_cannot_start env fpath_excl fpath_res fpath_out dset
  bound resolution n_cores completed w :
  sc_len (new_extent env fpath_excl resolution) = 0
  ∨ default (cpu_count env) n_cores = 0 →
  check_passes (fs w !! fpath_out) →
  ∃ new,
    run_resource_map env fpath_excl fpath_res fpath_out dset bound resolution
      n_cores completed w
    = (mk_world (fs w) (events w ++ new), Raise ValueError)
    ∧ quiet new.
Proof.
  intros Hstart Hpass.
  destruct (check_fout_world fpath_out fpath_excl dset w)
    as (new & r & Hcheck & Hquiet & _ & _).
  apply (check_fout_result _ _ _ _ _ _ Hcheck) in Hpass. subst r.
  exists new. split; [|done].
  unfold run_resource_map.
  rewrite (init_bind _ _ _ _ _ _ _ _ _ _ _ _ Hcheck).
  unfold mbind at 1, M_bind at 1.
  rewrite parallel_resource_map_eq, length_seq. cbn [_sc _n_cores].
  destruct (np_array_split _ _) as [chunks|e] eqn:Hsplit.
  - destruct Hstart as [Hlen| ->]; [|done].
    rewrite Hlen in Hsplit. done.
  - unfold np_array_split in Hsplit.
    destruct (ceil_half _ =? 0); by inversion Hsplit.
Qed.

Lemma run_resource_map_cannot_start_witness :
  ∃ new,
    run_resource_map Ex.env "excl.tif" "res.h5" "out.h5" "res_map"
      default_distance_upper_bound default_resolution (Some 0) [0; 1]
      Ex.world_mapped
    = (mk_world (fs Ex.world_mapped) (events Ex.world_mapped ++ new),
       Raise ValueError)
    ∧ quiet new.
Proof.
  apply (run_resource_map_cannot_start Ex.env "excl.tif" "res.h5" "out.h5"
           "res_map" default_distance_upper_bound default_resolution (Some 0)
           [0; 1] Ex.world_mapped).
  - right. reflexivity.
  - vm_compute. split; [by eexists|]. split; by eexists.
Defined.

(** ** What a run leaves alone *)

Lemma saved_file_keeps self ind coords dset v f0 f' :
  saved_file self ind coords dset v (Some f0) = Ok f' →
  h5_attrs f' = h5_attrs f0 ∧
  ∀ name, name ≠ dset → h5_dsets f' !! name = h5_dsets f0 !! name.
Proof. unfold saved_file. rewrite bind_Ok. apply written_file_keeps. Qed.

(** A finished [run_gen_map] has written to one path only as well; a
    file that was there keeps its attributes and every dataset other
    than the generation index dataset: the resource map that the pass
    reads is not altered when the two datasets have different names. *)
Theorem run_gen_map_frame env fpath_excl fpath_gen fpath_out gen_map_dset
  res_map_dset bound resolution n_cores completed w w' :
  run_gen_map env fpath_excl fpath_gen fpath_out gen_map_dset res_map_dset
    bound resolution n_cores completed w = (w', Ok tt) →
  (∀ path, path ≠ h5_path fpath_out → fs w' !! path = fs w !! path) ∧
  ∀ f0, fs w !! h5_path fpath_out = Some f0 →
    ∃ f', fs w' !! h5_path fpath_out = Some f' ∧
      h5_attrs f' = h5_attrs f0 ∧
      ∀ name, name ≠ gen_map_dset →
        h5_dsets f' !! name = h5_dsets f0 !! name.
Proof.
  intros Hrun. apply run_gen_map_Ok in Hrun
    as (chunks & v & ind & f1 & evs & _ & _ & Hsaved & ->).
  cbn [fs]. split.
  - intros path Hne. by rewrite lookup_insert_ne.
  - intros f0 Hf0. rewrite Hf0 in Hsaved.
    exists f1. split; [apply lookup_insert_eq|].
    by eapply saved_file_keeps.
Qed.

Lemma run_gen_map_frame_witness :
  (∀ path, path ≠ h5_path "out.h5" →
     fs (run_gen_map Ex.env "excl.tif" "gen.h5" "out.h5" "gen_map" "res_map"
           default_distance_upper_bound default_resolution default_n_cores
           [0; 1] Ex.world_mapped).1 !! path
     = fs Ex.world_mapped !! path) ∧
  ∀ f0, fs Ex.world_mapped !! h5_path "out.h5" = Some f0 →
    ∃ f', fs (run_gen_map Ex.env "excl.tif" "gen.h5" "out.h5" "gen_map"
                "res_map" default_distance_upper_bound default_resolution
                default_n_cores [0; 1] Ex.world_mapped).1
            !! h5_path "out.h5" = Some f' ∧
      h5_attrs f' = h5_attrs f0 ∧
      ∀ name, name ≠ "gen_map"%string →
        h5_dsets f' !! name = h5_dsets f0 !! name.
Proof.
  apply (run_gen_map_frame Ex.env "excl.tif" "gen.h5" "out.h5" "gen_map"
           "res_map" default_distance_upper_bound default_resolution
           default_n_cores [0; 1] Ex.world_mapped).
  vm_compute. reflexivity.
Defined.

(** The file from which [save_tech_map] starts to write the index
    dataset: the file that is there, or a new one, with the coordinate
    datasets when coordinates are passed. *)
Lemma saved_file_written self ind coords dset v old f' :
  saved_file self ind coords dset v old = Ok f' →
  ∃ f, written_file self ind dset v f = Ok f' ∧
       (∀ f0, old = Some f0 → f = f0) ∧
       (old = None →
        ∀ name, name ≠ "latitude"%string → name ≠ "longitude"%string →
          h5_dsets f !! name = None).
Proof.
  unfold saved_file. destruct old as [f0|]; [|destruct coords as [coords|]].
  - rewrite bind_Ok. intros H. exists f0. split; [done|].
    split; [by intros ? [= <-]|done].
  - destruct (np_reshape (fst <$> coords) _) as [lat|]; [|done].
    rewrite bind_Ok.
    destruct (np_reshape (snd <$> coords) _) as [lon|]; [|done].
    rewrite !bind_Ok. intros H. eexists. split; [exact H|].
    split; [done|]. intros _ name Hlat Hlon. cbn [h5_dsets].
    by rewrite !lookup_insert_ne, lookup_empty.
  - rewrite bind_Ok. intros H. eexists. split; [exact H|].
    split; [done|]. intros _ name _ _. apply lookup_empty.
Qed.

(** A finished [save_tech_map] has written to one path only, the output
    path with its [.h5] suffix, and has added no event; the object is
    the one it was called on. A file that was there keeps its attributes
    and every dataset other than the index dataset, so the cached
    coordinates and the maps of other names stay as they were. *)
Theorem save_tech_map_frame self ind coords fpath_out dset w w' self' :
  save_tech_map self ind coords fpath_out dset w = (w', Ok self') →
  events w' = events w ∧ self' = self ∧
  (∀ path, path ≠ h5_path fpath_out → fs w' !! path = fs w !! path) ∧
  ∀ f0, fs w !! h5_path fpath_out = Some f0 →
    ∃ f', fs w' !! h5_path fpath_out = Some f' ∧
      h5_attrs f' = h5_attrs f0 ∧
      ∀ name, name ≠ dset → h5_dsets f' !! name = h5_dsets f0 !! name.
Proof.
  intros Hsave.
  apply save_tech_map_Ok in Hsave as (v & f1 & _ & Hsaved & -> & ->).
  cbn [fs events]. split; [done|]. split; [done|]. split.
  - intros path Hne. by rewrite lookup_insert_ne.
  - intros f0 Hf0. rewrite Hf0 in Hsaved.
    exists f1. split; [apply lookup_insert_eq|].
    by eapply saved_file_keeps.
Qed.

Lemma save_tech_map_frame_witness :
  events
    (save_tech_map (Ex.mapper (Some 0.03%Q)) [1; 1; 0; 0]%Z None "out.h5"
       "again" Ex.world_mapped).1
  = events Ex.world_mapped
  ∧ Ex.mapper (Some 0.03%Q) = Ex.mapper (Some 0.03%Q)
  ∧ (∀ path, path ≠ h5_path "out.h5" →
       fs (save_tech_map (Ex.mapper (Some 0.03%Q)) [1; 1; 0; 0]%Z None
             "out.h5" "again" Ex.world_mapped).1 !! path
       = fs Ex.world_mapped !! path)
  ∧ ∀ f0, fs Ex.world_mapped !! h5_path "out.h5" = Some f0 →
      ∃ f', fs (save_tech_map (Ex.mapper (Some 0.03%Q)) [1; 1; 0; 0]%Z None
                  "out.h5" "again" Ex.world_mapped).1
              !! h5_path "out.h5" = Some f' ∧
        h5_attrs f' = h5_attrs f0 ∧
        ∀ name, name ≠ "again"%string →
          h5_dsets f' !! name = h5_dsets f0 !! name.
Proof.
  apply (save_tech_map_frame (Ex.mapper (Some 0.03%Q)) [1; 1; 0; 0]%Z None
           "out.h5" "again" Ex.world_mapped).
  vm_compute. reflexivity.
Defined.

(** ** The file that a save creates *)



(** ** The path that is written *)

Lemma string_length_app (p s : string) :
  String.length (p +:+ s) = String.length p + String.length s.
Proof. induction p as [|c p IH]; simpl; [done|]. by rewrite IH. Qed.

Lemma substring_all (s : string) : substring 0 (String.length s) s = s.
Proof. induction s as [|c s IH]; simpl; [done|]. by rewrite IH. Qed.

Lemma substring_app_r (p s : string) :
  substring (String.length p) (String.length s) (p +:+ s) = s.
Proof. induction p as [|c p IH]; simpl; [apply substring_all|done]. Qed.

Lemma endswith_app (p s : string) : endswith (p +:+ s) s = true.
Proof.
  unfold endswith. rewrite string_length_app.
  replace (String.length p + String.length s - String.length s)
    with (String.length p) by lia.
  rewrite substring_app_r, String.eqb_refl. simpl. apply Nat.leb_le. lia.
Qed.

(** The path that [save_tech_map] writes to always ends in [.h5]; a
    path that has the suffix is taken as it is, and a path without it is
    never the path that is written. *)
Theorem h5_path_suffix (fpath_out : string) :
  endswith (h5_path fpath_out) ".h5" = true ∧
  h5_path (h5_path fpath_out) = h5_path fpath_out ∧
  (h5_path fpath_out = fpath_out ↔ endswith fpath_out ".h5" = true).
Proof.
  unfold h5_path. destruct (endswith fpath_out ".h5") eqn:Hends.
  - by rewrite Hends.
  - rewrite endswith_app. split; [done|]. split; [done|].
    split; [|done]. intros Heq.
    apply (f_equal String.length) in Heq.
    rewrite string_length_app in Heq. simpl in Heq. lia.
Qed.

(** [save_tech_map] writes to the path with its suffix, the generation
    pass looks for the file at the path as given: after a finished
    [save_tech_map] with a path that does not end in [.h5] and at which
    no file was, [run_gen_map] with the same path raises
    [FileInputError]. *)
Theorem run_gen_map_after_save_without_suffix env self ind coords fpath_excl
  fpath_gen fpath_out res_map_dset gen_map_dset bound resolution n_cores
  completed w w1 self' :
  endswith fpath_out ".h5" = false →
  fs w !! fpath_out = None →
  save_tech_map self ind coords fpath_out res_map_dset w = (w1, Ok self') →
  run_gen_map env fpath_excl fpath_gen fpath_out gen_map_dset res_map_dset
    bound resolution n_cores completed w1 = (w1, Raise FileInputError).
Proof.
  intros Hends Hnone Hsave.
  apply save_tech_map_Ok in Hsave as (v & f1 & _ & _ & -> & _).
  assert (h5_path fpath_out ≠ fpath_out) as Hne.
  { intros Heq. unfold h5_path in Heq. rewrite Hends in Heq.
    apply (f_equal String.length) in Heq.
    rewrite string_length_app in Heq. simpl in Heq. lia. }
  assert (<[h5_path fpath_out:=f1]> (fs w) !! fpath_out = None) as Hnone1
    by by rewrite lookup_insert_ne.
  destruct (check_fout_world fpath_out fpath_excl gen_map_dset
              (mk_world (<[h5_path fpath_out:=f1]> (fs w)) (events w)))
    as (new1 & r & Hcheck & _ & Hquiet & _).
  destruct (Hquiet Hnone1) as [-> ->].
  unfold run_gen_map. rewrite (init_bind _ _ _ _ _ _ _ _ _ _ _ _ Hcheck).
  cbn [fs events]. rewrite app_nil_r.
  unfold _parallel_gen_map, mbind, M_bind, get_fs, raise, mret, M_ret; simpl.
  by rewrite Hnone1.
Qed.

Lemma run_gen_map_after_save_without_suffix_witness :
  run_gen_map Ex.env "excl.tif" "gen.h5" "out" "gen_map" "res_map"
    default_distance_upper_bound default_resolution default_n_cores [0; 1]
    (save_tech_map (Ex.mapper (Some 0.03%Q)) [0; -1; -1; 1]%Z
       (Some [(0, 0); (0, 1); (1, 0); (1, 1)]%Q) "out" "res_map"
       Ex.empty_world).1
  = ((save_tech_map (Ex.mapper (Some 0.03%Q)) [0; -1; -1; 1]%Z
        (Some [(0, 0); (0, 1); (1, 0); (1, 1)]%Q) "out" "res_map"
        Ex.empty_world).1, Raise FileInputError).
Proof.
  apply (run_gen_map_after_save_without_suffix Ex.env
           (Ex.mapper (Some 0.03%Q)) [0; -1; -1; 1]%Z
           (Some [(0, 0); (0, 1); (1, 0); (1, 1)]%Q) "excl.tif" "gen.h5" "out"
           "res_map" "gen_map" default_distance_upper_bound default_resolution
           default_n_cores [0; 1] Ex.empty_world
           (save_tech_map (Ex.mapper (Some 0.03%Q)) [0; -1; -1; 1]%Z
              (Some [(0, 0); (0, 1); (1, 0); (1, 1)]%Q) "out" "res_map"
              Ex.empty_world).1
           (Ex.mapper (Some 0.03%Q))).
  - reflexivity.
  - reflexivity.
  - vm_compute. reflexivity.
Defined.

(** With a path that ends in [.h5] and at which the check of the output
    file passes, a finished [save_tech_map] that was given coordinates
    leaves at that path a file that the check of a later run accepts and
    in which the generation pass finds the index dataset: it records an
    exclusion path and holds the two coordinate datasets and the index
    dataset. *)
Theorem save_tech_map_leaves_checked_file self ind coords fpath_out dset w w'
  self' :
  endswith fpath_out ".h5" = true →
  check_passes (fs w !! fpath_out) →
  save_tech_map self ind (Some coords) fpath_out dset w = (w', Ok self') →
  ∃ f s,
    fs w' !! fpath_out = Some f ∧
    h5_attrs f !! "fpath_excl"%string = Some (AStr s) ∧
    is_Some (h5_dsets f !! "latitude"%string) ∧
    is_Some (h5_dsets f !! "longitude"%string) ∧
    is_Some (h5_dsets f !! dset).
Proof.
  intros Hends Hpass Hsave.
  assert (h5_path fpath_out = fpath_out) as Hpath
    by (unfold h5_path; by rewrite Hends).
  apply save_tech_map_Ok in Hsave as (v & f1 & _ & Hsaved & -> & _).
  rewrite Hpath in *. cbn [fs]. rewrite lookup_insert_eq.
  destruct (saved_file_start _ _ _ _ _ _ _ Hsaved) as (f & Hw & Hf).
  pose proof (written_file_has _ _ _ _ _ _ Hw) as Hhas.
  apply written_file_keeps in Hw as [Hattrs Hkeeps].
  assert (∀ name, is_Some (h5_dsets f !! name) →
            is_Some (h5_dsets f1 !! name)) as Hmono.
  { intros name Hname. destruct (decide (name = dset)) as [->|Hne]; [done|].
    by rewrite Hkeeps. }
  destruct (fs w !! fpath_out) as [f0|].
  - subst f. destruct Hpass as ([s Hs] & Hlat & Hlon).
    exists f1, s. rewrite Hattrs. repeat split; auto.
  - destruct Hf as [_ ->]. eexists f1, _. rewrite Hattrs.
    split; [done|]. split; [apply lookup_singleton_eq|].
    split; [|split; [|done]]; apply Hmono; cbn [h5_dsets].
    + rewrite (lookup_insert_ne _ "longitude"%string "latitude"%string) by done.
      rewrite lookup_insert_eq. by eexists.
    + rewrite lookup_insert_eq. by eexists.
Qed.

Lemma save_tech_map_leaves_checked_file_witness :
  ∃ f s,
    fs (save_tech_map (Ex.mapper (Some 0.03%Q)) [0; -1; -1; 1]%Z
          (Some [(0, 0); (0, 1); (1, 0); (1, 1)]%Q) "out.h5" "res_map"
          Ex.empty_world).1 !! "out.h5"%string = Some f ∧
    h5_attrs f !! "fpath_excl"%string = Some (AStr s) ∧
    is_Some (h5_dsets f !! "latitude"%string) ∧
    is_Some (h5_dsets f !! "longitude"%string) ∧
    is_Some (h5_dsets f !! "res_map"%string).
Proof.
  apply (save_tech_map_leaves_checked_file (Ex.mapper (Some 0.03%Q))
           [0; -1; -1; 1]%Z [(0, 0); (0, 1); (1, 0); (1, 1)]%Q "out.h5"
           "res_map" Ex.empty_world
           (save_tech_map (Ex.mapper (Some 0.03%Q)) [0; -1; -1; 1]%Z
              (Some [(0, 0); (0, 1); (1, 0); (1, 1)]%Q) "out.h5" "res_map"
              Ex.empty_world).1
           (Ex.mapper (Some 0.03%Q))).
  - reflexivity.
  - vm_compute. exact I.
  - vm_compute. reflexivity.
Defined.

(** ** The scatter of a batch *)

(** The scatter of a finished batch writes at the pixels of the gids of
    the batch only: a pixel that belongs to none of them keeps its index
    and its coordinate, in particular the initial index -1 and the
    initial coordinate (0, 0). *)
Theorem scatter_resource_frame sc gid_set res out out' p :
  length out.1 = length out.2 →
  scatter_resource sc gid_set res out = Ok out' →
  p ∉ gid_set ≫= get_flat_excl_ind sc →
  out'.1 !! p = out.1 !! p ∧ out'.2 !! p = out.2 !! p.
Proof.
  destruct out as [a c]. cbn [fst snd]. intros Hlen Hscatter Hp.
  rewrite (scatter_resource_eq sc gid_set res a c (length a)) in Hscatter
    by done.
  destruct (mapM _ _) as [wss|] eqn:Hwss; [|done].
  rewrite bind_Ok in Hscatter. injection Hscatter as <-. cbn [fst snd].
  apply gid_writes_all_keys in Hwss as [Hk1 Hk2].
  rewrite snd_enumerate in Hk1, Hk2.
  by rewrite !apply_writes_lookup_notin by (by rewrite ?Hk1, ?Hk2).
Qed.

Lemma scatter_resource_frame_witness :
  ([0; -1; -1; -1]%Z,
   [(0, 0); (0, 13421773 # 134217728); (0, 0); (0, 0)]%Q : list coord).1 !! 3
  = (_init_out_arrays ExMore.sc_first_row).1 !! 3
  ∧ ([0; -1; -1; -1]%Z,
     [(0, 0); (0, 13421773 # 134217728); (0, 0); (0, 0)]%Q : list coord).2
      !! 3
    = (_init_out_arrays ExMore.sc_first_row).2 !! 3.
Proof.
  apply (scatter_resource_frame ExMore.sc_first_row [0; 1]
           ([IndArr [0%Z]; IndScalar (-1)], [[(0, 0)]; [(0, 0.1)]]%Q)
           (_init_out_arrays ExMore.sc_first_row)
           ([0; -1; -1; -1]%Z,
            [(0, 0); (0, 13421773 # 134217728); (0, 0); (0, 0)]%Q)
           3).
  - reflexivity.
  - vm_compute. reflexivity.
  - apply (bool_decide_unpack _). vm_compute. exact I.
Defined.

(** What the scatter of a finished batch writes: when the pixels of the
    gids of the batch are distinct, the pixel at place [k] of a gid
    holds the entry at place [k] of the result of that gid, or its single
    entry, and the float32 value of the coordinate at place [k] of the
    coordinate block of that gid, or of its single coordinate. The slot
    depends on the gid and on the place only. *)
Theorem scatter_resource_writes sc gid_set res out out' j gid e block k p :
  length out.1 = length out.2 →
  NoDup (gid_set ≫= get_flat_excl_ind sc) →
  scatter_resource sc gid_set res out = Ok out' →
  gid_set !! j = Some gid → res.1 !! j = Some e → res.2 !! j = Some block →
  get_flat_excl_ind sc gid !! k = Some p →
  ∃ z c,
    out'.1 !! p = Some z ∧ out'.2 !! p = Some (float32_coord c) ∧
    (entry_values e !! k = Some z ∨ entry_values e = [z]) ∧
    (block !! k = Some c ∨ block = [c]).
Proof.
  destruct out as [a c0]. cbn [fst snd].
  intros Hlen Hnd Hscatter Hgid He Hblock Hk.
  rewrite (scatter_resource_eq sc gid_set res a c0 (length a)) in Hscatter
    by done.
  destruct (mapM _ _) as [wss|] eqn:Hwss; [|done].
  rewrite bind_Ok in Hscatter. injection Hscatter as <-. cbn [fst snd].
  pose proof (gid_writes_all_keys _ _ _ _ _ Hwss) as [Hk1 Hk2].
  rewrite snd_enumerate in Hk1, Hk2.
  apply mapM_result_Ok in Hwss.
  destruct (Forall2_lookup_l _ _ _ j (j, gid) Hwss) as (ws & Hws & Hgw);
    [by apply enumerate_lookup|].
  unfold gid_writes, py_index in Hgw. cbn [fst snd] in Hgw.
  rewrite He, Hblock, bind_Ok in Hgw.
  destruct (setitem_writes (length a) _ (entry_values e)) as [wi|] eqn:Hwi;
    [|done].
  rewrite !bind_Ok in Hgw.
  destruct (setitem_writes (length a) _ (float32_coord <$> block)) as [wc|]
    eqn:Hwc; [|done].
  rewrite bind_Ok in Hgw. injection Hgw as <-.
  destruct (setitem_writes_lookup _ _ _ _ _ _ Hwi Hk) as (Hp & z & Hz & Hzv).
  destruct (setitem_writes_lookup _ _ _ _ _ _ Hwc Hk) as (_ & x & Hx & Hxv).
  assert (∃ c, x = float32_coord c ∧ (block !! k = Some c ∨ block = [c]))
    as (c & -> & Hc).
  { destruct Hxv as [[Hxk _]|Hone].
    - apply list_lookup_fmap_Some in Hxk as (c & -> & Hc).
      exists c. split; [done|by left].
    - destruct block as [|c [|??]]; try done. injection Hone as <-.
      exists c. split; [done|by right]. }
  exists z, c. split; [|split; [|split; [|done]]].
  - apply apply_writes_lookup_in; [by rewrite Hk1| |done].
    apply list_elem_of_bind. exists (wi, wc).
    split; by eapply list_elem_of_lookup_2.
  - apply apply_writes_lookup_in; [by rewrite Hk2| |by rewrite <- Hlen].
    apply list_elem_of_bind. exists (wi, wc).
    split; by eapply list_elem_of_lookup_2.
  - destruct Hzv as [[Hzk _]|Hone]; [by left|by right].
Qed.

Lemma scatter_resource_writes_witness :
  ∃ z c,
    ([0; -1; -1; -1]%Z,
     [(0, 0); (0, 13421773 # 134217728); (0, 0); (0, 0)]%Q : list coord).1
      !! 1 = Some z
    ∧ ([0; -1; -1; -1]%Z,
       [(0, 0); (0, 13421773 # 134217728); (0, 0); (0, 0)]%Q : list coord).2
        !! 1 = Some (float32_coord c)
    ∧ (entry_values (IndScalar (-1)) !! 0 = Some z
       ∨ entry_values (IndScalar (-1)) = [z])
    ∧ ([(0, 0.1)%Q] !! 0 = Some c ∨ [(0, 0.1)%Q] = [c]).
Proof.
  apply (scatter_resource_writes ExMore.sc_first_row [0; 1]
           ([IndArr [0%Z]; IndScalar (-1)], [[(0, 0)]; [(0, 0.1)]]%Q)
           (_init_out_arrays ExMore.sc_first_row)
           ([0; -1; -1; -1]%Z,
            [(0, 0); (0, 13421773 # 134217728); (0, 0); (0, 0)]%Q)
           1 1 (IndScalar (-1)) [(0, 0.1)%Q] 0 1).
  - reflexivity.
  - apply (bool_decide_unpack _). vm_compute. exact I.
  - vm_compute. reflexivity.
  - reflexivity.
  - reflexivity.
  - reflexivity.
  - reflexivity.
Defined.

(** ** The attributes of the index dataset *)

Lemma written_file_dataset self ind dset v f f' :
  written_file self ind dset v f = Ok f' →
  ∃ d, h5_dsets f' !! dset = Some d ∧
    ds_attrs d !! "fpath"%string = Some (AStr (_fpath_map self)) ∧
    ds_attrs d !! "distance_upper_bound"%string = Some (ANum v) ∧
    (h5_dsets f !! dset = None →
     ds_shape d = excl_shape (_sc self) ∧ ds_data d = I32 ind) ∧
    ∀ d0, h5_dsets f !! dset = Some d0 →
      ds_shape d = ds_shape d0 ∧
      ∀ key, key ≠ "fpath"%string → key ≠ "distance_upper_bound"%string →
        ds_attrs d !! key = ds_attrs d0 !! key.
Proof.
  unfold written_file, np_reshape.
  destruct (length ind =? _); [|done]. rewrite bind_Ok.
  destruct (h5_dsets f !! dset) as [d0|];
    [destruct (h5_broadcast _ (ds_shape d0) ind) as [vals|];
       [|by rewrite bind_Raise]|].
  all: rewrite !bind_Ok; intros [= <-]; eexists.
  all: (split; [apply lookup_insert_eq|]).
  all: cbn [ds_attrs ds_shape ds_data set_ds_attr].
  all: (split; [by rewrite lookup_insert_ne, lookup_insert_eq|]).
  all: (split; [by rewrite lookup_insert_eq|]).
  - split; [done|]. intros d1 [= <-]. split; [done|].
    intros key Hk1 Hk2. by rewrite !lookup_insert_ne.
  - split; [done|]. by intros d1.
Qed.

(** The index dataset that a finished [save_tech_map] leaves records
    the file of the object that it was mapped to and the bound of the
    object. A dataset that is written for the first time has the shape
    of the raster and holds the index array as it is; a dataset that was
    there is assigned in place: it keeps its shape and its other
    attributes. *)
Theorem save_tech_map_records_source self ind coords fpath_out dset w w'
  self' :
  save_tech_map self ind coords fpath_out dset w = (w', Ok self') →
  ∃ f d v,
    fs w' !! h5_path fpath_out = Some f ∧
    h5_dsets f !! dset = Some d ∧
    ds_attrs d !! "fpath"%string = Some (AStr (_fpath_map self)) ∧
    _distance_upper_bound self = Some v ∧
    ds_attrs d !! "distance_upper_bound"%string = Some (ANum v) ∧
    ((∀ f0, fs w !! h5_path fpath_out = Some f0 → h5_dsets f0 !! dset = None) →
     dset ≠ "latitude"%string → dset ≠ "longitude"%string →
     ds_shape d = excl_shape (_sc self) ∧ ds_data d = I32 ind) ∧
    ∀ f0 d0, fs w !! h5_path fpath_out = Some f0 →
      h5_dsets f0 !! dset = Some d0 →
      ds_shape d = ds_shape d0 ∧
      ∀ key, key ≠ "fpath"%string → key ≠ "distance_upper_bound"%string →
        ds_attrs d !! key = ds_attrs d0 !! key.
Proof.
  intros Hsave.
  apply save_tech_map_Ok in Hsave as (v & f1 & Hv & Hsaved & -> & _).
  apply saved_file_written in Hsaved as (f & Hw & Hold & Hnew).
  apply written_file_dataset in Hw
    as (d & Hd & Hfpath & Hbound & Hfresh & Hkept).
  exists f1, d, v. cbn [fs]. split; [apply lookup_insert_eq|].
  do 4 (split; [done|]). split.
  - intros Habsent Hlat Hlon. apply Hfresh.
    destruct (fs w !! h5_path fpath_out) as [f0|] eqn:Hf0.
    + rewrite (Hold f0) by done. by apply Habsent.
    + by apply Hnew.
  - intros f0 d0 Hf0 Hd0. apply Hkept. by rewrite (Hold f0).
Qed.

Lemma save_tech_map_records_source_witness :
  ∃ f d v,
    fs (save_tech_map (Ex.mapper (Some 0.03%Q)) [1; 1; 0; 0]%Z None "out.h5"
          "res_map" Ex.world_mapped).1 !! h5_path "out.h5" = Some f ∧
    h5_dsets f !! "res_map"%string = Some d ∧
    ds_attrs d !! "fpath"%string
    = Some (AStr (_fpath_map (Ex.mapper (Some 0.03%Q)))) ∧
    _distance_upper_bound (Ex.mapper (Some 0.03%Q)) = Some v ∧
    ds_attrs d !! "distance_upper_bound"%string = Some (ANum v) ∧
    ((∀ f0, fs Ex.world_mapped !! h5_path "out.h5" = Some f0 →
        h5_dsets f0 !! "res_map"%string = None) →
     "res_map"%string ≠ "latitude"%string →
     "res_map"%string ≠ "longitude"%string →
     ds_shape d = excl_shape (_sc (Ex.mapper (Some 0.03%Q)))
     ∧ ds_data d = I32 [1; 1; 0; 0]%Z) ∧
    ∀ f0 d0, fs Ex.world_mapped !! h5_path "out.h5" = Some f0 →
      h5_dsets f0 !! "res_map"%string = Some d0 →
      ds_shape d = ds_shape d0 ∧
      ∀ key, key ≠ "fpath"%string → key ≠ "distance_upper_bound"%string →
        ds_attrs d !! key = ds_attrs d0 !! key.
Proof.
  apply (save_tech_map_records_source (Ex.mapper (Some 0.03%Q))
           [1; 1; 0; 0]%Z None "out.h5" "res_map" Ex.world_mapped
           (save_tech_map (Ex.mapper (Some 0.03%Q)) [1; 1; 0; 0]%Z None
              "out.h5" "res_map" Ex.world_mapped).1
           (Ex.mapper (Some 0.03%Q))).
  vm_compute. reflexivity.
Defined.

(** ** Saving over a stored map *)



(** Saving the same index array a second time changes nothing: the
    world after the second [save_tech_map] is the world after the
    first, whatever coordinates the second one is given. *)
Theorem save_tech_map_twice self ind coords coords' fpath_out dset w w1 self1 :
  save_tech_map self ind coords fpath_out dset w = (w1, Ok self1) →
  save_tech_map self1 ind coords' fpath_out dset w1 = (w1, Ok self1).
Proof.
  intros Hsave.
  apply save_tech_map_Ok in Hsave as (v & f1 & Hv & Hsaved & -> & ->).
  apply saved_file_written in Hsaved as (f & Hw & _).
  apply written_file_idem in Hw.
  rewrite (save_tech_map_existing self ind coords' fpath_out dset _ f1 v f1);
    [|cbn [fs]; apply lookup_insert_eq|done|done].
  cbn [fs events]. by rewrite insert_insert_eq.
Qed.

Lemma save_tech_map_twice_witness :
  save_tech_map (Ex.mapper (Some 0.03%Q)) [0; -1; -1; 1]%Z None "out.h5"
    "res_map"
    (save_tech_map (Ex.mapper (Some 0.03%Q)) [0; -1; -1; 1]%Z
       (Some [(0, 0); (0, 1); (1, 0); (1, 1)]%Q) "out.h5" "res_map"
       Ex.empty_world).1
  = ((save_tech_map (Ex.mapper (Some 0.03%Q)) [0; -1; -1; 1]%Z
        (Some [(0, 0); (0, 1); (1, 0); (1, 1)]%Q) "out.h5" "res_map"
        Ex.empty_world).1, Ok (Ex.mapper (Some 0.03%Q))).
Proof.
  apply (save_tech_map_twice (Ex.mapper (Some 0.03%Q)) [0; -1; -1; 1]%Z
           (Some [(0, 0); (0, 1); (1, 0); (1, 1)]%Q) None "out.h5" "res_map"
           Ex.empty_world).
  vm_compute. reflexivity.
Defined.
